(** * Horizon booking backend: a shallow embedding of [app.py]

    The Flask handlers of [app.py] are embedded as state-passing functions
    over the four MongoDB collections ([hosts], [guests], [properties],
    [book]) and the caller's session.  An uncaught Python exception is an
    explicit outcome of a handler, and the state it leaves behind is kept:
    a write that happened before the exception stays in the store, exactly
    as with the real handlers, which have no transaction around them.
    Where the source and its libraries do not settle what happens next, the
    outcome is [Raise Unmodelled]: that is no Python exception but the mark
    of a point past which the model says nothing.

    Conventions of the model.
    - A JSON request body is a finite map from field names to scalar JSON
      values; [data.get(k)] is [data_get].  Arrays, sub-documents and
      floating-point numbers are not represented.  A string is the UTF-8
      encoding of its text (text that has none, with a lone surrogate, is
      not represented).
    - The routes [<string:...>] hand any path segment to their handler:
      an id argument is an arbitrary string.
    - A collection is the list of its documents in natural order.  The
      operations of [pymongo] that the handlers call are given their
      documented meaning on such lists.  The store is reachable and within
      its resource limits: no operation fails for want of a connection,
      of time or of room (a document stays below 16 MiB).
    - [ObjectId()] and [bcrypt.gensalt()] read the environment; the value
      they produce is an argument of the handler that calls them.
    - [bcrypt] itself (with its refusals), the regular-expression engine
      behind [$regex] and the ordering behind [cursor.sort] (each with the
      set of patterns or sort specifications that the server accepts) are
      parameters. *)

From Stdlib Require Import ZArith NArith Lia Ascii String.
From Stdlib Require QArith Qround.
From Stdlib Require Import DecimalString.
From stdpp Require Import base tactics option list strings gmap.

Local Open Scope string_scope.
Local Open Scope list_scope.
Local Open Scope Z_scope.

(** ** Outcomes and the handler monad *)

(** The Python exceptions that the modelled code can raise. *)
Inductive exn :=
  | InvalidId            (* bson.errors.InvalidId *)
  | TypeError
  | AttributeError
  | KeyError (k : string)
  | ZeroDivisionError
  | ValueError
  | OverflowError        (* the BSON encoder on an integer beyond 8 bytes *)
  | InvalidDocument      (* bson.errors.InvalidDocument *)
  | DuplicateKeyError    (* pymongo.errors.DuplicateKeyError *)
  | WriteError           (* pymongo.errors.WriteError *)
  | OperationFailure     (* pymongo.errors.OperationFailure *)
  | Unmodelled.          (* no exception: past this point the model is silent *)

Inductive outcome (A : Type) :=
  | Ok (a : A)
  | Raise (e : exn).
Arguments Ok {A} a.
Arguments Raise {A} e.

(** A computation over a state [S]: it always hands back a state, also
    when it raises. *)
Definition M (S A : Type) : Type := S → outcome A * S.

Definition ret {S A} (a : A) : M S A := λ s, (Ok a, s).
Definition raise {S A} (e : exn) : M S A := λ s, (Raise e, s).
Definition bind {S A B} (m : M S A) (k : A → M S B) : M S B :=
  λ s, match m s with
       | (Ok a, s') => k a s'
       | (Raise e, s') => (Raise e, s')
       end.
Definition lift {S A} (o : outcome A) : M S A := λ s, (o, s).
Definition gets {S A} (f : S → A) : M S A := λ s, (Ok (f s), s).
Definition modify {S} (f : S → S) : M S unit := λ s, (Ok tt, f s).

Notation "'do' x <- m ; k" := (bind m (λ x, k))
  (at level 10, x name, m at level 100, k at level 200,
   format "'[v' 'do'  x  <-  m ; '/' k ']'").
Notation "'do_' m ; k" := (bind m (λ _, k))
  (at level 10, m at level 100, k at level 200,
   format "'[v' 'do_'  m ; '/' k ']'").

(** Run a computation over a component [C] of the state. *)
Definition zoom {S C A} (get : S → C) (set : C → S → S) (m : M C A) : M S A :=
  λ s, let '(r, c) := m (get s) in (r, set c s).

Fixpoint mapM {S A B} (f : A → M S B) (l : list A) : M S (list B) :=
  match l with
  | [] => ret []
  | a :: l' => do b <- f a; do bs <- mapM f l'; ret (b :: bs)
  end.

(** ** Values *)

(** Scalar JSON values as Python sees them after [request.get_json()];
    [VNone] is both JSON [null] and the [None] of a missing key. *)
Inductive value :=
  | VNone
  | VBool (b : bool)
  | VInt (z : Z)
  | VStr (s : string).

Global Instance value_eq_dec : EqDecision value.
Proof. solve_decision. Defined.

(** Python truthiness, as tested by [if property_id:]. *)
Definition truthy (v : value) : bool :=
  match v with
  | VNone => false
  | VBool b => b
  | VInt z => negb (z =? 0)
  | VStr s => negb (String.eqb s "")
  end.

(** [str(v)]. *)
Definition py_str (v : value) : string :=
  match v with
  | VNone => "None"
  | VBool true => "True"
  | VBool false => "False"
  | VInt z => NilZero.string_of_int (Z.to_int z)
  | VStr s => s
  end.

(** The range of the integers that BSON holds: eight bytes, signed. *)
Definition int64 (z : Z) : bool := (- 2 ^ 63 <=? z) && (z <? 2 ^ 63).

(** A value that the BSON encoder of the driver takes; for an integer
    beyond eight bytes it raises [OverflowError] before anything is sent
    to the server. *)
Definition encodable_value (v : value) : bool :=
  match v with
  | VInt z => int64 z
  | VNone | VBool _ | VStr _ => true
  end.

(** ** ObjectId *)

(** A BSON ObjectId is twelve bytes; it is held as the number those bytes
    spell, and [valid_oid] says that it fits. *)
Definition ObjectId : Type := N.

Definition valid_oid (o : ObjectId) : Prop := (o < 2 ^ 96)%N.

Definition hex_digit (d : N) : ascii :=
  if (d <? 10)%N then ascii_of_N (48 + d) else ascii_of_N (87 + d).

Definition hex_value (c : ascii) : option N :=
  let n := N_of_ascii c in
  if (48 <=? n)%N && (n <=? 57)%N then Some (n - 48)%N
  else if (97 <=? n)%N && (n <=? 102)%N then Some (n - 87)%N
  else if (65 <=? n)%N && (n <=? 70)%N then Some (n - 55)%N
  else None.

Fixpoint to_hex (k : nat) (n : N) (acc : string) : string :=
  match k with
  | O => acc
  | S k' => to_hex k' (n / 16)%N (String (hex_digit (n mod 16)%N) acc)
  end.

Fixpoint of_hex (s : string) (acc : N) : option N :=
  match s with
  | EmptyString => Some acc
  | String c s' =>
      match hex_value c with
      | Some d => of_hex s' (16 * acc + d)%N
      | None => None
      end
  end.

(** [str(oid)]: twenty-four lower-case hexadecimal digits. *)
Definition str_oid (o : ObjectId) : string := to_hex 24 o "".

(** The white space that [bytes.fromhex] skips: blank, tab, line feed,
    vertical tab, form feed, carriage return. *)
Definition is_hex_blank (c : ascii) : bool :=
  let n := N_of_ascii c in
  ((9 <=? n)%N && (n <=? 13)%N) || (n =? 32)%N.

(** [bytes.fromhex(s)] succeeds: [s] is a run of two-digit hexadecimal
    pairs with white space allowed before each pair and at the end. *)
Fixpoint fromhex_accepts (s : string) : bool :=
  match s with
  | EmptyString => true
  | String c s' =>
      if is_hex_blank c then fromhex_accepts s'
      else
        match hex_value c, s' with
        | Some _, String d s'' =>
            match hex_value d with
            | Some _ => fromhex_accepts s''
            | None => false
            end
        | _, _ => false
        end
  end.

(** [ObjectId(s)] for a [str] argument.  A string whose length is not 24,
    or that [bytes.fromhex] refuses, raises [InvalidId].  Twenty-four
    hexadecimal digits give the id they spell.  A string of length 24 that
    [bytes.fromhex] takes because some of its characters are white space
    gives an ObjectId of fewer than twelve bytes; every use of an id in
    [app.py] hands it to the driver at once, and what the driver and the
    server make of such an id is not settled by the source: [Unmodelled]. *)
Definition ObjectId_of_str (s : string) : outcome ObjectId :=
  if (String.length s =? 24)%nat then
    match of_hex s 0 with
    | Some n => Ok n
    | None => if fromhex_accepts s then Raise Unmodelled else Raise InvalidId
    end
  else Raise InvalidId.

(** [ObjectId(v)] for a value taken from a JSON body or a stored booking.
    Both call sites sit under [if property_id:], so [None] (for which the
    constructor would mint a new id) never reaches this function; that
    case is listed only to make the match total. *)
Definition ObjectId_of (v : value) : outcome ObjectId :=
  match v with
  | VStr s => ObjectId_of_str s
  | VNone | VBool _ | VInt _ => Raise TypeError
  end.

(** ** JSON responses *)

(** Every body that the modelled handlers pass to [jsonify] is a dict of
    strings or a list of such dicts. *)
Definition json_object : Type := list (string * string).

Inductive json :=
  | JObj (fields : json_object)
  | JArr (items : list json_object).

(** What a view function returns: the [jsonify] body and the status code
    (200 when the handler returns the body alone). *)
Record response := Response { body : json; code : nat }.

(** ** Collections *)

(** Every stored document carries the [_id] that MongoDB indexes. *)
Class HasId (A : Type) := oid_of : A → ObjectId.

(** What the BSON encoder takes: [encodable a] fails when some integer of
    the document [a] is beyond eight bytes. *)
Class Bson (A : Type) := encodable : A → bool.

Section collection.
Context {A : Type} `{HasId A} `{Bson A}.

(** The filter [{"_id": i}]. *)
Definition has_id (i : ObjectId) (a : A) : bool := N.eqb (oid_of a) i.

(** [find_one(q)]: the first document that satisfies [q]. *)
Definition find_one (q : A → bool) (c : list A) : option A := List.find q c.

(** [count_documents(q)]. *)
Definition count_documents (q : A → bool) (c : list A) : Z :=
  Z.of_nat (length (List.filter q c)).

(** [insert_one(a).inserted_id].  The driver encodes the document before
    it sends anything; the unique index on [_id] refuses a second document
    with the same id. *)
Definition insert_one (a : A) : M (list A) ObjectId :=
  λ c, if negb (encodable a) then (Raise OverflowError, c)
       else if existsb (has_id (oid_of a)) c
       then (Raise DuplicateKeyError, c)
       else (Ok (oid_of a), c ++ [a]).

Fixpoint update_first (q : A → bool) (f : A → A) (c : list A) : list A :=
  match c with
  | [] => []
  | a :: c' => if q a then f a :: c' else a :: update_first q f c'
  end.

Fixpoint delete_first (q : A → bool) (c : list A) : list A :=
  match c with
  | [] => []
  | a :: c' => if q a then c' else a :: delete_first q c'
  end.

(** [delete_one(q).deleted_count]. *)
Definition delete_one (q : A → bool) : M (list A) Z :=
  λ c, match find_one q c with
       | Some _ => (Ok 1, delete_first q c)
       | None => (Ok 0, c)
       end.
End collection.

(** ** Documents *)

(** A document of [properties]: its [_id] and its other fields.  The
    fields are a map because [update_property] merges whatever the request
    body holds. *)
Record document := Document {
  doc_id : ObjectId;
  doc_fields : gmap string value
}.

Global Instance document_HasId : HasId document := doc_id.

(** All values of a map of fields are ones that the encoder takes. *)
Definition encodable_fields (m : gmap string value) : Prop :=
  map_Forall (λ _ v, encodable_value v = true) m.

Global Instance document_Bson : Bson document :=
  λ d, bool_decide (encodable_fields (doc_fields d)).

(** [class Booking], stored through [booking.__dict__]. *)
Record Booking := {
  b_id : ObjectId;
  b_property_id : value;
  b_property_title : value;
  b_price_per_night : value;
  b_property_location : value;
  b_property_img : value;
  b_book_date : value;
  b_end_date : value
}.

Global Instance Booking_HasId : HasId Booking := b_id.

Global Instance Booking_Bson : Bson Booking :=
  λ b, encodable_value (b_property_id b)
       && encodable_value (b_property_title b)
       && encodable_value (b_price_per_night b)
       && encodable_value (b_property_location b)
       && encodable_value (b_property_img b)
       && encodable_value (b_book_date b)
       && encodable_value (b_end_date b).

(** A document of [hosts] or [guests]: only the signup handlers insert
    there, always as [{"email": ..., "password": ...}] with the bcrypt
    hash (bytes) as password. *)
Record credential := Credential {
  cred_id : ObjectId;
  cred_email : value;
  cred_password : string
}.

Global Instance credential_HasId : HasId credential := cred_id.

Global Instance credential_Bson : Bson credential :=
  λ c, encodable_value (cred_email c).

(** [{"$set": upd}] applied to one document. *)
Definition set_fields (upd : gmap string value) (d : document) : document :=
  {| doc_id := doc_id d; doc_fields := upd ∪ doc_fields d |}.

(** A field name that [$set] takes as the name of a top-level field: not
    empty, no dot (a dot makes a path into a sub-document), no leading
    dollar sign, no NUL. *)
Fixpoint has_char (c : ascii) (s : string) : bool :=
  match s with
  | EmptyString => false
  | String a s' => Ascii.eqb a c || has_char c s'
  end.

Definition plain_key (k : string) : bool :=
  negb (String.eqb k "")
  && negb (String.prefix "$" k)
  && negb (has_char "." k)
  && negb (has_char zero k).

(** A [$set] body all of whose keys are plain, and that is not empty (an
    empty [$set] is refused or ignored, depending on the server). *)
Definition plain_fields (m : gmap string value) : Prop :=
  m ≠ ∅ ∧ map_Forall (λ k _, plain_key k = true) m.

(** [update_one(q, {"$set": upd}).matched_count].  The driver encodes the
    update first ([OverflowError] on an integer beyond eight bytes).  What
    the server does with an empty [upd] or with a key that is not plain is
    left out of the model.  Otherwise only the first match is written;
    [_id] is immutable: a body that names it is refused once a document
    matched (a JSON value is never the ObjectId already stored). *)
Definition update_one_set (q : document → bool) (upd : gmap string value)
  : M (list document) Z :=
  λ c, if negb (bool_decide (encodable_fields upd)) then (Raise OverflowError, c)
       else if negb (bool_decide (plain_fields upd)) then (Raise Unmodelled, c)
       else
         match find_one q c with
         | None => (Ok 0, c)
         | Some _ =>
             if bool_decide (is_Some (upd !! "_id"))
             then (Raise WriteError, c)
             else (Ok 1, update_first q (set_fields upd) c)
         end.

(** ** The state the handlers run in *)

Record world := World {
  hosts : list credential;
  guests : list credential;
  properties : list document;
  book : list Booking;
  session : gmap string string   (* the caller's Flask session *)
}.

Definition with_hosts (c : list credential) (w : world) : world :=
  {| hosts := c; guests := guests w; properties := properties w;
     book := book w; session := session w |}.
Definition with_guests (c : list credential) (w : world) : world :=
  {| hosts := hosts w; guests := c; properties := properties w;
     book := book w; session := session w |}.
Definition with_properties (c : list document) (w : world) : world :=
  {| hosts := hosts w; guests := guests w; properties := c;
     book := book w; session := session w |}.
Definition with_book (c : list Booking) (w : world) : world :=
  {| hosts := hosts w; guests := guests w; properties := properties w;
     book := c; session := session w |}.
Definition with_session (s : gmap string string) (w : world) : world :=
  {| hosts := hosts w; guests := guests w; properties := properties w;
     book := book w; session := s |}.

(** [db.hosts], [db.guests], [db.properties], [db.book]. *)
Definition db_hosts {A} : M (list credential) A → M world A := zoom hosts with_hosts.
Definition db_guests {A} : M (list credential) A → M world A := zoom guests with_guests.
Definition db_properties {A} : M (list document) A → M world A :=
  zoom properties with_properties.
Definition db_book {A} : M (list Booking) A → M world A := zoom book with_book.

(** [data.get(k)] on a JSON body. *)
Definition data_get (data : gmap string value) (k : string) : value :=
  default VNone (data !! k).

(** ** Property update (PUT /api/properties/<property_id>) *)

Definition update_property (property_id : string) (data : gmap string value)
  : M world response :=
  do oid <- lift (ObjectId_of_str property_id);
  do_ db_properties (update_one_set (has_id oid) data);
  ret (Response (JObj [("message", "Property updated successfully")]) 200).

(** ** Booking routes *)

(** POST /api/properties/book.  [new_id] is the id that [ObjectId()] gives
    the new [Booking]. *)
Definition post_property_to_book_collection
    (new_id : ObjectId) (data : gmap string value) : M world response :=
  let property_id := data_get data "property_id" in
  let property_title := data_get data "property_title" in
  let price_per_night := data_get data "price_per_night" in
  let property_location := data_get data "property_location" in
  let property_img := data_get data "property_img" in
  let book_date := data_get data "book_date" in
  let end_date := data_get data "end_date" in
  let booking :=
    {| b_id := new_id;
       b_property_id := property_id;
       b_property_title := property_title;
       b_price_per_night := price_per_night;
       b_property_location := property_location;
       b_property_img := property_img;
       b_book_date := book_date;
       b_end_date := end_date |} in
  do booking_id <- db_book (insert_one booking);
  do_ (if truthy property_id then
         do oid <- lift (ObjectId_of property_id);
         do_ db_properties
               (update_one_set (has_id oid) {["status" := VBool false]});
         ret tt
       else ret tt);
  ret (Response (JObj [("booking_id", str_oid booking_id)]) 201).

(** DELETE /api/properties/book/<booking_id>. *)
Definition delete_book_data (booking_id : string) : M world response :=
  let not_found := Response (JObj [("message", "Booking data not found")]) 404 in
  do oid <- lift (ObjectId_of_str booking_id);
  do book_entry <- db_book (gets (find_one (has_id oid)));
  match book_entry with
  | Some entry =>
      let property_id := b_property_id entry in
      do oid <- lift (ObjectId_of_str booking_id);
      do deleted_count <- db_book (delete_one (has_id oid));
      if 0 <? deleted_count then
        do_ (if truthy property_id then
               do poid <- lift (ObjectId_of property_id);
               do_ db_properties
                     (update_one_set (has_id poid) {["status" := VBool true]});
               ret tt
             else ret tt);
        ret (Response (JObj [("message", "Booking data deleted successfully")]) 200)
      else ret not_found
  | None => ret not_found
  end.

(** ** User routes *)

Inductive role := Host | Guest.

Definition other_role (r : role) : role :=
  match r with Host => Guest | Guest => Host end.

(** The partition of the credential store that belongs to a role. *)
Definition partition (r : role) (w : world) : list credential :=
  match r with Host => hosts w | Guest => guests w end.

(** The filter [{"email": email}]. *)
Definition email_is (email : value) (c : credential) : bool :=
  bool_decide (cred_email c = email).

(** [find_one({"email": email})]: the driver encodes the filter first. *)
Definition find_by_email (email : value)
  : M (list credential) (option credential) :=
  λ c, if encodable_value email then (Ok (find_one (email_is email) c), c)
       else (Raise OverflowError, c).

Section auth.
(** [bcrypt.hashpw(password, salt)] and [bcrypt.checkpw(password, hash)]
    on byte strings; either may refuse its arguments (a password of more
    than 72 bytes, a malformed salt or hash) by raising. *)
Variable hashpw : string → string → outcome string.
Variable checkpw : string → string → outcome bool.

(** [password.encode('utf-8')] exists on [str] only. *)
Definition hash_password (salt : string) (password : value) : outcome string :=
  match password with
  | VStr p => hashpw p salt
  | VNone | VBool _ | VInt _ => Raise AttributeError
  end.

Definition verify_password (stored_hash : string) (password : value)
  : outcome bool :=
  match password with
  | VStr p => checkpw p stored_hash
  | VNone | VBool _ | VInt _ => Raise AttributeError
  end.

(** POST /signup/host.  [new_id] is the id that [insert_one] mints for
    the new document, [salt] the result of [bcrypt.gensalt()]. *)
Definition host_signup (new_id : ObjectId) (salt : string)
    (data : gmap string value) : M world response :=
  let email := data_get data "email" in
  let password := data_get data "password" in
  do existing <- db_hosts (find_by_email email);
  match existing with
  | Some _ => ret (Response (JObj [("error", "Email already exists")]) 400)
  | None =>
      do hashed_password <- lift (hash_password salt password);
      do host_id <- db_hosts (insert_one (Credential new_id email hashed_password));
      ret (Response (JObj [("host_id", str_oid host_id)]) 201)
  end.

(** POST /signup/guest. *)
Definition guest_signup (new_id : ObjectId) (salt : string)
    (data : gmap string value) : M world response :=
  let email := data_get data "email" in
  let password := data_get data "password" in
  do existing <- db_guests (find_by_email email);
  match existing with
  | Some _ => ret (Response (JObj [("error", "Email already exists")]) 400)
  | None =>
      do hashed_password <- lift (hash_password salt password);
      do guest_id <- db_guests (insert_one (Credential new_id email hashed_password));
      ret (Response (JObj [("guest_id", str_oid guest_id)]) 201)
  end.

Definition invalid_credentials : response :=
  Response (JObj [("error", "Invalid credentials")]) 401.

(** POST /login/host.  [not host or not verify_password(...)] evaluates
    its second operand only when a host was found. *)
Definition host_login (data : gmap string value) : M world response :=
  let email := data_get data "email" in
  let password := data_get data "password" in
  do host <- db_hosts (find_by_email email);
  match host with
  | None => ret invalid_credentials
  | Some h =>
      do verified <- lift (verify_password (cred_password h) password);
      if negb verified then ret invalid_credentials
      else
        do_ modify (λ w, with_session (<["user_role" := "host"]> (session w)) w);
        ret (Response (JObj [("message", "Host login successful");
                             ("host_id", str_oid (cred_id h))]) 200)
  end.

(** POST /login/guest. *)
Definition guest_login (data : gmap string value) : M world response :=
  let email := data_get data "email" in
  let password := data_get data "password" in
  do guest <- db_guests (find_by_email email);
  match guest with
  | None => ret invalid_credentials
  | Some g =>
      do verified <- lift (verify_password (cred_password g) password);
      if negb verified then ret invalid_credentials
      else
        do_ modify (λ w, with_session (<["user_role" := "guest"]> (session w)) w);
        ret (Response (JObj [("message", "Guest login successful")]) 200)
  end.

Definition signup (r : role) :=
  match r with Host => host_signup | Guest => guest_signup end.

Definition login (r : role) :=
  match r with Host => host_login | Guest => guest_login end.
End auth.

(** ** Property listing (GET /api/properties) *)

(** The query string.  The numeric parameters are held as the integers
    that [int(...)] reads from them; [None] is an absent parameter. *)
Record list_args := {
  a_sort_by : option string;
  a_sort_order : option Z;
  a_page : option Z;
  a_per_page : option Z;
  a_title : option string;
  a_property_type : option string;
  a_location : option string
}.

(** [filter_query]: a key is present when its parameter is a non-empty
    string. *)
Record filter_query := {
  q_title : option string;          (* {'$regex': ..., '$options': 'i'} *)
  q_property_type : option string;
  q_location : option string
}.

Definition nonempty (s : string) : option string :=
  if String.eqb s "" then None else Some s.

(** The local variables of [get_all_properties] after line 161. *)
Record page_plan := {
  total_pages : Z;
  page : Z;
  skip : Z
}.

(** Lines 158-161.  Python's [//] is floor division, as [Z.div] is, and
    raises on a zero divisor. *)
Definition paginate (total_properties page per_page : Z) : outcome page_plan :=
  if per_page =? 0 then Raise ZeroDivisionError
  else
    let total_pages := (total_properties - 1) / per_page + 1 in
    let page := Z.max 1 (Z.min page total_pages) in
    let skip := (page - 1) * per_page in
    let skip := Z.max 0 skip in
    Ok {| total_pages := total_pages; page := page; skip := skip |}.

(** [cursor.limit(n)]: zero is no limit, a negative number counts as its
    absolute value. *)
Definition limit (n : Z) (c : list document) : list document :=
  if n =? 0 then c else take (Z.abs_nat n) c.

(** [property[k]]. *)
Definition getitem (d : document) (k : string) : outcome value :=
  match doc_fields d !! k with
  | Some v => Ok v
  | None => Raise (KeyError k)
  end.

Section listing.
(** [regex_search p s]: the regular expression [p] matches somewhere in
    [s], ignoring case. *)
Variable regex_search : string → string → bool.
(** [sort_documents key direction c]: the documents of [c] in the order
    that [cursor.sort(key, direction)] yields them. *)
Variable sort_documents : string → Z → list document → list document.
(** [regex_valid p]: the server compiles [p] as a regular expression; a
    query with another pattern fails as a whole. *)
Variable regex_valid : string → bool.
(** [sort_valid key direction]: the server accepts the sort
    specification. *)
Variable sort_valid : string → Z → bool.

(** The filter as a predicate on documents, for a filter that the server
    accepts ([query_accepted] below). *)
Definition matches (q : filter_query) (d : document) : bool :=
  match q_title q with
  | Some p =>
      match doc_fields d !! "title" with
      | Some (VStr t) => regex_search p t
      | _ => false
      end
  | None => true
  end
  && match q_property_type q with
     | Some t => bool_decide (doc_fields d !! "property_type" = Some (VStr t))
     | None => true
     end
  && match q_location q with
     | Some l => bool_decide (doc_fields d !! "location" = Some (VStr l))
     | None => true
     end.

Definition build_filter_query (args : list_args) : filter_query :=
  {| q_title := nonempty (default "" (a_title args));
     q_property_type := nonempty (default "" (a_property_type args));
     q_location := nonempty (default "" (a_location args)) |}.

(** One element of [res]. *)
Definition property_view (d : document) : M world json_object :=
  do title <- lift (getitem d "title");
  do location <- lift (getitem d "location");
  do property_type <- lift (getitem d "property_type");
  do description <- lift (getitem d "description");
  do price_per_night <- lift (getitem d "price_per_night");
  do status <- lift (getitem d "status");
  do img <- lift (getitem d "img");
  ret [("id", str_oid (doc_id d));
       ("title", py_str title);
       ("location", py_str location);
       ("property_type", py_str property_type);
       ("description", py_str description);
       ("price_per_night", py_str price_per_night);
       ("status", py_str status);
       ("img", py_str img)].

(** The server accepts the filter: its [$regex] pattern, when it has one,
    compiles. *)
Definition query_accepted (q : filter_query) : bool :=
  match q_title q with
  | Some p => regex_valid p
  | None => true
  end.

(** [count_documents(q)] on the server: it fails on a filter that the
    server does not accept. *)
Definition count_matching (q : filter_query) : M (list document) Z :=
  λ c, if query_accepted q then (Ok (count_documents (matches q) c), c)
       else (Raise OperationFailure, c).

(** What the cursor [find(q).skip(s).limit(n)], sorted when [sort_by] is
    not empty, yields once the server has accepted it: the server sorts
    first, then skips, then limits. *)
Definition cursor_documents (q : filter_query) (s n : Z) (sort_by : string)
    (sort_order : Z) (c : list document) : list document :=
  let found := List.filter (matches q) c in
  let ordered := if String.eqb sort_by "" then found
                 else sort_documents sort_by sort_order found in
  limit n (drop (Z.to_nat s) ordered).

(** Iterating the cursor.  The driver encodes the find command first:
    the sort specification ([InvalidDocument] for a NUL in the key,
    [OverflowError] for a direction beyond eight bytes), then the skip
    and the absolute value of the limit ([OverflowError] again).  The
    server then refuses a filter or a sort specification that it does not
    accept. *)
Definition run_cursor (q : filter_query) (s n : Z) (sort_by : string)
    (sort_order : Z) : M (list document) (list document) :=
  λ c, if has_char zero sort_by then (Raise InvalidDocument, c)
       else if negb (int64 s && int64 (Z.abs n)
                     && (String.eqb sort_by "" || int64 sort_order))
       then (Raise OverflowError, c)
       else if negb (query_accepted q
                     && (String.eqb sort_by "" || sort_valid sort_by sort_order))
       then (Raise OperationFailure, c)
       else (Ok (cursor_documents q s n sort_by sort_order c), c).

Definition get_all_properties (args : list_args) : M world response :=
  let sort_by := default "price_per_night" (a_sort_by args) in
  let sort_order := default 1 (a_sort_order args) in
  let page := default 1 (a_page args) in
  let per_page := default 9 (a_per_page args) in
  let filter_query := build_filter_query args in
  do total_properties <- db_properties (count_matching filter_query);
  do plan <- lift (paginate total_properties page per_page);
  do found <-
    db_properties
      (run_cursor filter_query (skip plan) per_page sort_by sort_order);
  do res <- mapM property_view found;
  ret (Response (JArr res) 200).
End listing.

(** ** Notions used by the statements *)

(** The ceiling of the rational [a / b]. *)
Definition ceiling_of_ratio (a b : Z) : Z :=
  Qround.Qceiling (QArith_base.Qdiv (QArith_base.inject_Z a) (QArith_base.inject_Z b)).

(** The number of properties that match the filters of a listing request,
    and the page plan that [get_all_properties] computes from it. *)
Definition total_count (regex_search : string → string → bool)
    (args : list_args) (w : world) : Z :=
  count_documents (matches regex_search (build_filter_query args)) (properties w).

Definition listing_plan (regex_search : string → string → bool)
    (args : list_args) (w : world) : outcome page_plan :=
  paginate (total_count regex_search args w)
           (default 1 (a_page args)) (default 9 (a_per_page args)).

(** The page that the cursor of a listing request yields for a plan, once
    the server has accepted it. *)
Definition listing_page (regex_search : string → string → bool)
    (sort_documents : string → Z → list document → list document)
    (args : list_args) (plan : page_plan) (w : world) : list document :=
  cursor_documents regex_search sort_documents (build_filter_query args) (skip plan)
    (default 9 (a_per_page args)) (default "price_per_night" (a_sort_by args))
    (default 1 (a_sort_order args)) (properties w).

(** The total-page count as the specification words it: the ceiling of
    [total_count / per_page], but never less than 1. *)
Definition total_pages_with_minimum (total per_page : Z) : Z :=
  Z.max 1 (ceiling_of_ratio total per_page).

(** ** Sample data for the closed examples *)

Definition sample_property (i : ObjectId) (title : string) (price : Z)
    (status : bool) : document :=
  Document i
    (<["title" := VStr title]>
     (<["location" := VStr "Goa"]>
      (<["property_type" := VStr "villa"]>
       (<["description" := VStr "sea view"]>
        (<["price_per_night" := VInt price]>
         (<["status" := VBool status]>
          (<["img" := VStr "a.png"]> ∅))))))).

Definition oid_p1 : ObjectId := 0x64b7f0c2a1d3e4f5a6b7c801%N.
Definition oid_p2 : ObjectId := 0x64b7f0c2a1d3e4f5a6b7c802%N.
Definition oid_p3 : ObjectId := 0x64b7f0c2a1d3e4f5a6b7c803%N.
Definition oid_b1 : ObjectId := 0x64b7f0c2a1d3e4f5a6b7c901%N.
Definition oid_b2 : ObjectId := 0x64b7f0c2a1d3e4f5a6b7c902%N.
Definition oid_u1 : ObjectId := 0x64b7f0c2a1d3e4f5a6b7ca01%N.
Definition oid_u2 : ObjectId := 0x64b7f0c2a1d3e4f5a6b7ca02%N.

(** Three available properties, no booking, no account. *)
Definition sample_world : world :=
  {| hosts := []; guests := [];
     properties := [sample_property oid_p1 "Casa Azul" 50 true;
                    sample_property oid_p2 "Blue Lagoon" 80 true;
                    sample_property oid_p3 "Hill Top" 30 true];
     book := [];
     session := ∅ |}.

Definition empty_world : world :=
  {| hosts := []; guests := []; properties := []; book := []; session := ∅ |}.

(** A listing request with [page] and [per_page] given and no filter. *)
Definition page_request (page per_page : Z) : list_args :=
  {| a_sort_by := None; a_sort_order := None;
     a_page := Some page; a_per_page := Some per_page;
     a_title := None; a_property_type := None; a_location := None |}.

(** A listing request that filters on the location. *)
Definition location_request (location : string) : list_args :=
  {| a_sort_by := None; a_sort_order := None;
     a_page := None; a_per_page := None;
     a_title := None; a_property_type := None; a_location := Some location |}.

(** Stand-ins for the parameters: a matcher that accepts everything and a
    cursor that keeps the natural order. *)
Definition match_all (p s : string) : bool := true.
(** A server that compiles every pattern but a lone opening parenthesis,
    and one that accepts the sort directions 1 and -1. *)
Definition sample_regex_valid (p : string) : bool := negb (String.eqb p "(").
Definition sample_sort_valid (key : string) (direction : Z) : bool :=
  (direction =? 1) || (direction =? -1).
Definition natural_order (key : string) (direction : Z) (c : list document)
  : list document := c.

(** ** Bookings and availability *)

(** The record that [post_property_to_book_collection] stores. *)
Definition booking_of (new_id : ObjectId) (data : gmap string value) : Booking :=
  {| b_id := new_id;
     b_property_id := data_get data "property_id";
     b_property_title := data_get data "property_title";
     b_price_per_night := data_get data "price_per_night";
     b_property_location := data_get data "property_location";
     b_property_img := data_get data "property_img";
     b_book_date := data_get data "book_date";
     b_end_date := data_get data "end_date" |}.

Definition booking_created (new_id : ObjectId) : response :=
  Response (JObj [("booking_id", str_oid new_id)]) 201.
Definition booking_deleted : response :=
  Response (JObj [("message", "Booking data deleted successfully")]) 200.
Definition booking_not_found : response :=
  Response (JObj [("message", "Booking data not found")]) 404.
Definition property_updated : response :=
  Response (JObj [("message", "Property updated successfully")]) 200.

(** The collection after [{"$set": {"status": b}}] on the document with
    id [i]. *)
Definition set_status (b : bool) (i : ObjectId) (c : list document) : list document :=
  update_first (has_id i) (set_fields {["status" := VBool b]}) c.

(** The [status] field of the property with id [i], when there is one. *)
Definition property_status (i : ObjectId) (w : world) : option value :=
  find_one (has_id i) (properties w) ≫= λ d, doc_fields d !! "status".

(** The property that a stored [property_id] designates: the one whose
    status the ledger writes for it. *)
Definition designates (v : value) : option ObjectId :=
  if truthy v then
    match ObjectId_of v with
    | Ok i => Some i
    | Raise _ => None
    end
  else None.

(** Booking [b] references the property with id [i]. *)
Definition references (i : ObjectId) (b : Booking) : bool :=
  bool_decide (designates (b_property_id b) = Some i).

(** Some active booking references the property with id [i]. *)
Definition booked (i : ObjectId) (w : world) : bool :=
  existsb (references i) (book w).

(** The availability invariant of the specification: a property's status
    is false while a booking references it and true otherwise. *)
Definition status_consistent (w : world) : Prop :=
  ∀ i d, find_one (has_id i) (properties w) = Some d →
         doc_fields d !! "status" = Some (VBool (negb (booked i w))).

(** The operations of the booking ledger that write. *)
Inductive ledger_op :=
  | Create (new_id : ObjectId) (data : gmap string value)
  | Delete (booking_id : string).

Definition run_op (op : ledger_op) : M world response :=
  match op with
  | Create new_id data => post_property_to_book_collection new_id data
  | Delete booking_id => delete_book_data booking_id
  end.

(** The state after an operation, whether it returned or raised. *)
Definition exec (op : ledger_op) (w : world) : world := snd (run_op op w).

(** [ledger_run allowed w w']: [w'] is reached from [w] by ledger
    operations, each of them [allowed] in the state it starts from. *)
Inductive ledger_run (allowed : world → ledger_op → Prop) : world → world → Prop :=
  | run_here w : ledger_run allowed w w
  | run_step w w' op :
      ledger_run allowed w w' → allowed w' op →
      ledger_run allowed w (exec op w').

Definition any_op (w : world) (op : ledger_op) : Prop := True.

(** An operation that never takes a booking away from a property that
    another booking still references: a [Delete] is allowed only when no
    booking that remains references the property of the deleted one. *)
Definition last_reference (w : world) (op : ledger_op) : Prop :=
  match op with
  | Create _ _ => True
  | Delete booking_id =>
      ∀ oid entry i,
        ObjectId_of_str booking_id = Ok oid →
        find_one (has_id oid) (book w) = Some entry →
        designates (b_property_id entry) = Some i →
        booked i (exec op w) = false
  end.

(** A booking request for the property with id [i]. *)
Definition booking_request (i : ObjectId) : gmap string value :=
  <["property_id" := VStr (str_oid i)]>
  (<["property_title" := VStr "Casa Azul"]>
   (<["book_date" := VStr "2024-01-05"]>
    (<["end_date" := VStr "2024-01-09"]> ∅))).

(** No stored booking has the id that the string [booking_id] spells. *)
Definition booking_absent (booking_id : string) (w : world) : Prop :=
  ∀ oid, ObjectId_of_str booking_id = Ok oid →
         find_one (has_id oid) (book w) = None.

(** The [property_id] of a booking request refers to no property of the
    catalog. *)
Definition refers_to_no_property (property_id : value) (w : world) : Prop :=
  ∀ i, designates property_id = Some i →
       find_one (has_id i) (properties w) = None.

(** A [property_id] that the booking handler gets past: nothing to look
    up, or a string of 24 hexadecimal digits. *)
Definition usable_property_id (property_id : value) : Prop :=
  truthy property_id = false ∨ ∃ i, ObjectId_of property_id = Ok i.

(** The sample catalog with one booking on its first property. *)
Definition booked_world : world :=
  exec (Create oid_b1 (booking_request oid_p1)) sample_world.

(** A booking request whose [property_id] is not an ObjectId string. *)
Definition stray_request : gmap string value :=
  <["property_id" := VStr "abc"]> (<["property_title" := VStr "Nowhere"]> ∅).

(** ** Accounts *)

Definition email_exists : response :=
  Response (JObj [("error", "Email already exists")]) 400.

(** The success response of a signup. *)
Definition signed_up (r : role) (new_id : ObjectId) : response :=
  Response (JObj [(match r with Host => "host_id" | Guest => "guest_id" end,
                   str_oid new_id)]) 201.

(** The state after one more credential in the partition of a role. *)
Definition add_credential (r : role) (c : credential) (w : world) : world :=
  match r with
  | Host => with_hosts (hosts w ++ [c]) w
  | Guest => with_guests (guests w ++ [c]) w
  end.

(** The two ways in which a login is turned down: the email is in no
    record of the role's partition, or it is and the password is a string
    that bcrypt checks against the stored hash and finds not to match.
    (The email is a value that the driver can put into its query.) *)
Definition rejected (checkpw : string → string → outcome bool) (r : role)
    (w : world) (data : gmap string value) : Prop :=
  encodable_value (data_get data "email") = true
  ∧ match find_one (email_is (data_get data "email")) (partition r w) with
    | None => True
    | Some c => ∃ p, data_get data "password" = VStr p
                     ∧ checkpw p (cred_password c) = Ok false
    end.

(** Stand-ins for bcrypt: the hash is the salt (two characters) followed
    by the password, and a password of more than 72 bytes is refused. *)
Definition sample_hash (password salt : string) : string :=
  String.append salt password.
Definition sample_hashpw (password salt : string) : outcome string :=
  if (String.length password <=? 72)%nat then Ok (sample_hash password salt)
  else Raise ValueError.
Definition sample_checkpw (password hash : string) : outcome bool :=
  if (String.length password <=? 72)%nat
  then Ok (String.eqb (String.substring 2 (String.length hash - 2) hash) password)
  else Raise ValueError.

Definition credentials (email password : string) : gmap string value :=
  <["email" := VStr email]> (<["password" := VStr password]> ∅).

(** Ann has a host account only. *)
Definition host_only_world : world :=
  {| hosts := [Credential oid_u1 (VStr "ann@example.org")
                 (sample_hash "tulip" "s1")];
     guests := []; properties := []; book := []; session := ∅ |}.

(** Ann has a host account and a guest account. *)
Definition host_and_guest_world : world :=
  {| hosts := [Credential oid_u1 (VStr "ann@example.org")
                 (sample_hash "tulip" "s1")];
     guests := [Credential oid_u2 (VStr "ann@example.org")
                  (sample_hash "rose" "s2")];
     properties := []; book := []; session := ∅ |}.

(** ** Requests within the reach of the model *)

(** The store accepts the queries of a listing request: the title
    pattern, when there is one, compiles; [per_page] and the sort direction
    fit eight bytes; the sort specification is one that the server takes. *)
Definition listing_accepted (regex_valid : string → bool)
    (sort_valid : string → Z → bool) (args : list_args) : Prop :=
  query_accepted regex_valid (build_filter_query args) = true
  ∧ int64 (Z.abs (default 9 (a_per_page args))) = true
  ∧ (default "price_per_night" (a_sort_by args) = ""
     ∨ (has_char zero (default "price_per_night" (a_sort_by args)) = false
        ∧ int64 (default 1 (a_sort_order args)) = true
        ∧ sort_valid (default "price_per_night" (a_sort_by args))
            (default 1 (a_sort_order args)) = true)).

(** A request body that the driver encodes and whose keys [$set] takes as
    top-level field names. *)
Definition plain_body (data : gmap string value) : Prop :=
  encodable_fields data ∧ plain_fields data.

(** An id string on which [ObjectId] settles: twenty-four hexadecimal
    digits, or a string that it refuses. *)
Definition settled_id (s : string) : Prop :=
  ObjectId_of_str s ≠ Raise Unmodelled.

(** A [property_id] value on which the booking handlers settle. *)
Definition settled_property_id (v : value) : Prop :=
  truthy v = true → ObjectId_of v ≠ Raise Unmodelled.

(** The exception with which the cursor of a listing request fails for a
    plan, if it does. *)
Definition cursor_refusal (regex_valid : string → bool)
    (sort_valid : string → Z → bool) (args : list_args) (plan : page_plan)
  : option exn :=
  let sort_by := default "price_per_night" (a_sort_by args) in
  let sort_order := default 1 (a_sort_order args) in
  if has_char zero sort_by then Some InvalidDocument
  else if negb (int64 (skip plan) && int64 (Z.abs (default 9 (a_per_page args)))
                && (String.eqb sort_by "" || int64 sort_order))
  then Some OverflowError
  else if negb (query_accepted regex_valid (build_filter_query args)
                && (String.eqb sort_by "" || sort_valid sort_by sort_order))
  then Some OperationFailure
  else None.

(** A listing request that filters on the title. *)
Definition title_request (title : string) : list_args :=
  {| a_sort_by := None; a_sort_order := None;
     a_page := None; a_per_page := None;
     a_title := Some title; a_property_type := None; a_location := None |}.

(** ** The remaining routes *)

(** Bodies that hold a boolean or [null] beside strings: the single
    property view and the chat reply. *)
Inductive jvalue :=
  | JString (s : string)
  | JBoolean (b : bool)
  | JNull.

Record reply := Reply { reply_body : list (string * jvalue); reply_code : nat }.

(** POST /logout: [session.pop('user_role', None)]. *)
Definition logout : M world response :=
  do_ modify (λ w, with_session (delete "user_role" (session w)) w);
  ret (Response (JObj [("message", "Logout successful")]) 200).

(** GET /api/properties/<property_id>. *)
Definition get_property (property_id : string) : M world reply :=
  do oid <- lift (ObjectId_of_str property_id);
  do property <- db_properties (gets (find_one (has_id oid)));
  match property with
  | Some d =>
      do title <- lift (getitem d "title");
      do location <- lift (getitem d "location");
      do property_type <- lift (getitem d "property_type");
      do description <- lift (getitem d "description");
      do price_per_night <- lift (getitem d "price_per_night");
      do status <- lift (getitem d "status");
      do img <- lift (getitem d "img");
      ret (Reply [("id", JString (str_oid (doc_id d)));
                  ("title", JString (py_str title));
                  ("location", JString (py_str location));
                  ("property_type", JString (py_str property_type));
                  ("description", JString (py_str description));
                  ("price_per_night", JString (py_str price_per_night));
                  ("status", JBoolean (truthy status));
                  ("img", JString (py_str img))] 200)
  | None => ret (Reply [("message", JString "Property not found")] 404)
  end.

(** [data[k]] on a JSON body. *)
Definition data_item (data : gmap string value) (k : string) : outcome value :=
  match data !! k with
  | Some v => Ok v
  | None => Raise (KeyError k)
  end.

(** [Property(...).__dict__]: the id that [ObjectId()] gives and the seven
    attributes. *)
Definition property_document (new_id : ObjectId)
    (title location property_type description price_per_night status img : value)
  : document :=
  Document new_id
    (<["title" := title]>
     (<["location" := location]>
      (<["property_type" := property_type]>
       (<["description" := description]>
        (<["price_per_night" := price_per_night]>
         (<["status" := status]>
          (<["img" := img]> ∅))))))).

(** POST /api/properties.  The keyword arguments are evaluated in the
    order in which they are written. *)
Definition create_property (new_id : ObjectId) (data : gmap string value)
  : M world response :=
  do title <- lift (data_item data "title");
  do location <- lift (data_item data "location");
  do property_type <- lift (data_item data "property_type");
  do description <- lift (data_item data "description");
  do price_per_night <- lift (data_item data "price_per_night");
  do status <- lift (data_item data "status");
  do img <- lift (data_item data "img");
  let property :=
    property_document new_id title location property_type description
      price_per_night status img in
  do_ db_properties (insert_one property);
  ret (Response (JObj [("message", "Property created successfully")]) 201).

(** DELETE /api/properties/<property_id>. *)
Definition delete_property (property_id : string) : M world response :=
  do oid <- lift (ObjectId_of_str property_id);
  do deleted_count <- db_properties (delete_one (has_id oid));
  if 0 <? deleted_count then
    ret (Response (JObj [("message", "Property deleted successfully")]) 200)
  else ret (Response (JObj [("message", "Property not found")]) 404).

(** One booking as the two GET routes of the ledger render it. *)
Definition booking_view (book_entry : Booking) : json_object :=
  [("booking_id", str_oid (b_id book_entry));
   ("property_id", py_str (b_property_id book_entry));
   ("property_title", py_str (b_property_title book_entry));
   ("price_per_night", py_str (b_price_per_night book_entry));
   ("property_location", py_str (b_property_location book_entry));
   ("property_img", py_str (b_property_img book_entry));
   ("book_date", py_str (b_book_date book_entry));
   ("end_date", py_str (b_end_date book_entry))].

(** GET /api/properties/book. *)
Definition get_all_book_data : M world response :=
  do book_data <- db_book (gets (λ c, c));
  ret (Response (JArr (map booking_view book_data)) 200).

(** GET /api/properties/book/<booking_id>. *)
Definition get_book_data (booking_id : string) : M world response :=
  do oid <- lift (ObjectId_of_str booking_id);
  do book_entry <- db_book (gets (find_one (has_id oid)));
  match book_entry with
  | Some entry => ret (Response (JObj (booking_view entry)) 200)
  | None => ret (Response (JObj [("message", "Booking data not found")]) 404)
  end.

(** ** Chat *)

(** Text is taken to be ASCII here: [str.strip] and [str.lower] are given
    on the ASCII white space and letters. *)
Definition is_space (c : ascii) : bool :=
  let n := N_of_ascii c in
  ((9 <=? n)%N && (n <=? 13)%N) || ((28 <=? n)%N && (n <=? 32)%N).

Fixpoint lstrip (s : string) : string :=
  match s with
  | EmptyString => EmptyString
  | String c s' => if is_space c then lstrip s' else s
  end.

Fixpoint rstrip (s : string) : string :=
  match s with
  | EmptyString => EmptyString
  | String c s' =>
      match rstrip s' with
      | EmptyString => if is_space c then EmptyString else String c EmptyString
      | r => String c r
      end
  end.

(** [s.strip()]. *)
Definition strip (s : string) : string := rstrip (lstrip s).

Definition lower_char (c : ascii) : ascii :=
  let n := N_of_ascii c in
  if (65 <=? n)%N && (n <=? 90)%N then ascii_of_N (n + 32) else c.

(** [s.lower()]. *)
Fixpoint lower (s : string) : string :=
  match s with
  | EmptyString => EmptyString
  | String c s' => String (lower_char c) (lower s')
  end.

(** [p in s] for strings. *)
Fixpoint contains (p s : string) : bool :=
  String.prefix p s
  || match s with
     | EmptyString => false
     | String _ s' => contains p s'
     end.

Definition greetings : list string := ["hi"; "hello"; "hey"].

Definition newline : string := String (ascii_of_nat 10) EmptyString.

(** The body of [get_hotel_response] is [pass]: it returns [None]. *)
Definition get_hotel_response (user_input : string) : option string := None.

Section chat.
(** [completion prompt]: the text of the first choice that
    [openai.Completion.create] returns for the prompt, or [None] when
    anything inside the [try] block raises. *)
Variable completion : string → option string.

(** The reply is a string or Python's [None]. *)
Definition get_chatbot_response (user_input : string) : option string :=
  if String.eqb (strip user_input) "" then Some "How can I assist you?"
  else if existsb (String.eqb (lower user_input)) greetings
  then Some "Yes, hello! How can I help you?"
  else if contains "hotel" (lower user_input) then get_hotel_response user_input
  else
    match completion (String.append "User: "
                        (String.append user_input (String.append newline "ChatGPT:"))) with
    | Some text => Some (strip text)
    | None =>
        Some "I'm sorry, but I couldn't understand your question. Please try again later."
    end.

(** POST /api/chat.  [request.json['user_input']] must be there, and
    [strip] exists on [str] only. *)
Definition chat (data : gmap string value) : M world reply :=
  do user_input <- lift (data_item data "user_input");
  match user_input with
  | VStr s =>
      let response := get_chatbot_response s in
      ret (Reply [("response", match response with
                               | Some r => JString r
                               | None => JNull
                               end)] 200)
  | VNone | VBool _ | VInt _ => raise AttributeError
  end.
End chat.

(** ** Further notions used by the statements *)

(** A listing request with its [page] parameter replaced. *)
Definition with_page (p : Z) (args : list_args) : list_args :=
  {| a_sort_by := a_sort_by args; a_sort_order := a_sort_order args;
     a_page := Some p; a_per_page := a_per_page args;
     a_title := a_title args; a_property_type := a_property_type args;
     a_location := a_location args |}.

(** The matching properties in the order in which the cursor of a listing
    request walks them, before skip and limit. *)
Definition listing_sequence (regex_search : string → string → bool)
    (sort_documents : string → Z → list document → list document)
    (args : list_args) (w : world) : list document :=
  let found := List.filter (matches regex_search (build_filter_query args))
                 (properties w) in
  if String.eqb (default "price_per_night" (a_sort_by args)) "" then found
  else sort_documents (default "price_per_night" (a_sort_by args))
         (default 1 (a_sort_order args)) found.

(** The documents on page [p] of a listing request. *)
Definition page_of (regex_search : string → string → bool)
    (sort_documents : string → Z → list document → list document)
    (args : list_args) (w : world) (p : Z) : list document :=
  match listing_plan regex_search (with_page p args) w with
  | Ok plan => listing_page regex_search sort_documents (with_page p args) plan w
  | Raise _ => []
  end.

(** The fields that every view of a property reads. *)
Definition property_fields : list string :=
  ["title"; "location"; "property_type"; "description"; "price_per_night";
   "status"; "img"].

(** A property document that has all of them. *)
Definition complete (d : document) : Prop :=
  ∀ k, k ∈ property_fields → is_Some (doc_fields d !! k).

Definition catalog_complete (w : world) : Prop :=
  ∀ d, d ∈ properties w → complete d.

(** The operations that write to the store. *)
Inductive store_op :=
  | CreateProperty (new_id : ObjectId) (data : gmap string value)
  | UpdateProperty (property_id : string) (data : gmap string value)
  | DeleteProperty (property_id : string)
  | Ledger (op : ledger_op).

Definition exec_store (op : store_op) (w : world) : world :=
  match op with
  | CreateProperty new_id data => snd (create_property new_id data w)
  | UpdateProperty property_id data => snd (update_property property_id data w)
  | DeleteProperty property_id => snd (delete_property property_id w)
  | Ledger op => exec op w
  end.

Inductive store_run : world → world → Prop :=
  | store_here w : store_run w w
  | store_step w w' op : store_run w w' → store_run w (exec_store op w').

(** No email occurs twice in the partition of role [r]. *)
Definition emails_unique (r : role) (w : world) : Prop :=
  NoDup (map cred_email (partition r w)).

(** A complete property request. *)
Definition property_request (title : string) (price : Z) : gmap string value :=
  <["title" := VStr title]>
  (<["location" := VStr "Goa"]>
   (<["property_type" := VStr "villa"]>
    (<["description" := VStr "sea view"]>
     (<["price_per_night" := VInt price]>
      (<["status" := VBool true]>
       (<["img" := VStr "a.png"]> ∅)))))).

(** Stand-ins for the completion service: one that always fails and one
    that echoes a fixed text. *)
Definition completion_down (prompt : string) : option string := None.
Definition completion_fixed (prompt : string) : option string :=
  Some "  Try the beach.  ".

(** The view of the third sample property. *)
Definition hill_top_view : json_object :=
  [("id", "64b7f0c2a1d3e4f5a6b7c803"); ("title", "Hill Top");
   ("location", "Goa"); ("property_type", "villa");
   ("description", "sea view"); ("price_per_night", "30");
   ("status", "True"); ("img", "a.png")].

(** The first of the seven property fields that a body lacks. *)
Definition first_missing (data : gmap string value) : option string :=
  List.find (λ k, bool_decide (data !! k = None)) property_fields.

Definition property_created : response :=
  Response (JObj [("message", "Property created successfully")]) 201.
Definition property_deleted : response :=
  Response (JObj [("message", "Property deleted successfully")]) 200.
Definition property_not_found : response :=
  Response (JObj [("message", "Property not found")]) 404.
Definition property_not_found_reply : reply :=
  Reply [("message", JString "Property not found")] 404.

(** The document that [create_property] stores for a body. *)
Definition property_of (new_id : ObjectId) (data : gmap string value) : document :=
  property_document new_id (data_get data "title") (data_get data "location")
    (data_get data "property_type") (data_get data "description")
    (data_get data "price_per_night") (data_get data "status") (data_get data "img").

(** The single-property view of a document whose seven fields have the
    given values. *)
Definition property_reply (i : ObjectId)
    (title location property_type description price_per_night status img : value)
  : reply :=
  Reply [("id", JString (str_oid i));
         ("title", JString (py_str title));
         ("location", JString (py_str location));
         ("property_type", JString (py_str property_type));
         ("description", JString (py_str description));
         ("price_per_night", JString (py_str price_per_night));
         ("status", JBoolean (truthy status));
         ("img", JString (py_str img))] 200.

(** No id occurs twice in the catalog, as the index on [_id] has it. *)
Definition property_ids_unique (w : world) : Prop :=
  NoDup (map doc_id (properties w)).

Definition booking_ids_unique (w : world) : Prop :=
  NoDup (map b_id (book w)).

(** Two property documents that differ in their status at most. *)
Definition same_but_status (d d' : document) : Prop :=
  doc_id d' = doc_id d
  ∧ ∀ k, k ≠ "status" → doc_fields d' !! k = doc_fields d !! k.

(** The role as the session records it. *)
Definition role_name (r : role) : string :=
  match r with Host => "host" | Guest => "guest" end.

(** The success response of a login for the account with id [i]. *)
Definition logged_in (r : role) (i : ObjectId) : response :=
  match r with
  | Host => Response (JObj [("message", "Host login successful");
                            ("host_id", str_oid i)]) 200
  | Guest => Response (JObj [("message", "Guest login successful")]) 200
  end.

Definition logged_out : response :=
  Response (JObj [("message", "Logout successful")]) 200.

(** * Properties *)

(** ** ObjectId: printing and reading back *)

Example str_oid_example :
  str_oid 0x507f1f77bcf86cd799439011%N = "507f1f77bcf86cd799439011".
Proof. reflexivity. Qed.

Example ObjectId_of_str_example :
  ObjectId_of_str "507F1f77bcf86cd799439011" = Ok 0x507f1f77bcf86cd799439011%N
  ∧ ObjectId_of_str "abc" = Raise InvalidId
  ∧ ObjectId_of_str "507f1f77bcf86cd79943901g" = Raise InvalidId.
Proof. repeat split; reflexivity. Qed.

Example ObjectId_of_str_blanks :
  ObjectId_of_str "64b7f0c2a1d3e4f5a6b7c8  " = Raise Unmodelled
  ∧ ObjectId_of_str "6 4b7f0c2a1d3e4f5a6b7c8 " = Raise InvalidId
  ∧ ObjectId_of_str "64b7f0c2a1d3e4f5a6b7c8" = Raise InvalidId.
Proof. repeat split; reflexivity. Qed.

Example py_str_example :
  py_str (VInt (-120)) = "-120" ∧ py_str (VInt 0) = "0" ∧ py_str (VBool true) = "True".
Proof. repeat split; reflexivity. Qed.

Lemma hex_value_digit d : (d < 16)%N → hex_value (hex_digit d) = Some d.
Proof.
  intros Hd.
  destruct d as [|p]; [reflexivity|].
  do 4 (destruct p as [p|p|]; try reflexivity); lia.
Qed.

Lemma length_to_hex k : ∀ n acc,
  String.length (to_hex k n acc) = (k + String.length acc)%nat.
Proof.
  induction k as [|k IH]; intros n acc; simpl; [done|].
  rewrite IH. simpl. lia.
Qed.

Lemma of_hex_to_hex k : ∀ n rest a,
  of_hex (to_hex k n rest) a = of_hex rest (a * 16 ^ N.of_nat k + n mod 16 ^ N.of_nat k)%N.
Proof.
  induction k as [|k IH]; intros n rest a.
  - simpl. f_equal. rewrite N.mod_1_r. lia.
  - cbn [to_hex]. rewrite IH. cbn [of_hex].
    rewrite hex_value_digit by (apply N.mod_lt; lia).
    f_equal. rewrite Nat2N.inj_succ, N.pow_succ_r'.
    rewrite (N.Div0.mod_mul_r n 16 (16 ^ N.of_nat k)). lia.
Qed.

Lemma ObjectId_of_str_str o : valid_oid o → ObjectId_of_str (str_oid o) = Ok o.
Proof.
  intros Ho. unfold ObjectId_of_str, str_oid.
  rewrite length_to_hex. cbn [String.length Nat.add Nat.eqb].
  rewrite of_hex_to_hex. cbn [of_hex].
  rewrite N.mod_small; [done|]. exact Ho.
Qed.

Lemma ObjectId_of_str_raise s e :
  ObjectId_of_str s = Raise e → e = InvalidId ∨ e = Unmodelled.
Proof.
  unfold ObjectId_of_str.
  destruct (_ =? _)%nat; [|intros [= <-]; by left].
  destruct (of_hex s 0); [discriminate|].
  destruct (fromhex_accepts s); intros [= <-]; [by right|by left].
Qed.

(** ** Pagination *)

Example paginate_example :
  paginate 20 5 9 = Ok {| total_pages := 3; page := 3; skip := 18 |}
  ∧ paginate 18 0 9 = Ok {| total_pages := 2; page := 1; skip := 0 |}
  ∧ paginate 0 4 9 = Ok {| total_pages := 0; page := 1; skip := 0 |}
  ∧ paginate 5 1 0 = Raise ZeroDivisionError.
Proof. repeat split; reflexivity. Qed.

Lemma ceiling_of_ratio_div a b : 0 < b → ceiling_of_ratio a b = - (- a / b).
Proof.
  intros Hb. destruct b as [|p|p]; try lia.
  unfold ceiling_of_ratio, Qround.Qceiling, Qround.Qfloor.
  cbn. f_equal. f_equal; lia.
Qed.

Lemma floor_formula_is_ceiling a b : 0 < b → (a - 1) / b + 1 = - (- a / b).
Proof.
  intros Hb.
  assert (H1 := Z.div_mod (a - 1) b ltac:(lia)).
  assert (H2 := Z.mod_pos_bound (a - 1) b Hb).
  symmetry. apply Z.opp_inj. rewrite Z.opp_involutive.
  symmetry. apply (Z.div_unique_pos _ _ _ (b - 1 - (a - 1) mod b)); [lia|].
  nia.
Qed.

Lemma total_pages_is_ceiling total per_page :
  0 < per_page → (total - 1) / per_page + 1 = ceiling_of_ratio total per_page.
Proof.
  intros H. rewrite ceiling_of_ratio_div by done. by apply floor_formula_is_ceiling.
Qed.

Lemma ceiling_of_ratio_nonneg total per_page :
  0 ≤ total → 0 < per_page → 0 ≤ ceiling_of_ratio total per_page.
Proof.
  intros Ht Hp. rewrite <- total_pages_is_ceiling by done.
  assert (-1 ≤ (total - 1) / per_page); [|lia].
  apply Z.div_le_lower_bound; lia.
Qed.

Lemma count_documents_nonneg `{HasId A} (q : A → bool) (c : list A) :
  0 ≤ count_documents q c.
Proof. unfold count_documents. lia. Qed.

Lemma paginate_ok total requested per_page :
  per_page ≠ 0 →
  paginate total requested per_page =
    Ok {| total_pages := (total - 1) / per_page + 1;
          page := Z.max 1 (Z.min requested ((total - 1) / per_page + 1));
          skip := Z.max 0 ((Z.max 1 (Z.min requested ((total - 1) / per_page + 1)) - 1)
                           * per_page) |}.
Proof.
  intros Hp. unfold paginate.
  destruct (Z.eqb_spec per_page 0) as [->|_]; [done|reflexivity].
Qed.

(** The handler is the count, its page plan, the cursor and the views,
    each of which may fail. *)
Lemma get_all_properties_plan regex_search sort_documents regex_valid sort_valid
    args w :
  get_all_properties regex_search sort_documents regex_valid sort_valid args w =
    if query_accepted regex_valid (build_filter_query args) then
      match listing_plan regex_search args w with
      | Ok plan =>
          match cursor_refusal regex_valid sort_valid args plan with
          | Some e => (Raise e, w)
          | None =>
              (do res <- mapM (property_view)
                           (listing_page regex_search sort_documents args plan w);
               ret (Response (JArr res) 200)) w
          end
      | Raise e => (Raise e, w)
      end
    else (Raise OperationFailure, w).
Proof.
  destruct w as [h g p b s].
  unfold get_all_properties, listing_plan, listing_page, total_count,
    count_matching, run_cursor, cursor_refusal.
  unfold bind, db_properties, zoom, gets, lift, with_properties; simpl.
  destruct (query_accepted _ _); [|reflexivity]. simpl.
  destruct (paginate _ _ _) as [plan|e]; [|reflexivity]. simpl.
  destruct (has_char _ _); [reflexivity|].
  destruct (negb (int64 (skip plan) && _ && _)); [reflexivity|].
  destruct (negb _); reflexivity.
Qed.

Lemma cursor_refusal_None regex_valid sort_valid args plan :
  listing_accepted regex_valid sort_valid args →
  int64 (skip plan) = true →
  cursor_refusal regex_valid sort_valid args plan = None.
Proof.
  intros (Hq & Hn & Hs) Hk. unfold cursor_refusal. cbn zeta.
  rewrite Hk, Hn, Hq. cbn.
  destruct Hs as [->|(Hz & Ho & Hv)]; [reflexivity|].
  rewrite Hz, Ho, Hv, !orb_true_r. reflexivity.
Qed.

(** C1. For every [per_page > 0], every requested page and every filter
    combination, the page that the listing operation settles on lies
    between 1 and [max 1 (ceil (total_count / per_page))], and the skip
    offset is not negative; [total_count] is the number of properties that
    match the filters. *)
Theorem listing_page_in_range regex_search (args : list_args) (w : world) :
  0 < default 9 (a_per_page args) →
  ∃ plan, listing_plan regex_search args w = Ok plan
    ∧ 1 ≤ page plan
    ∧ page plan ≤ Z.max 1 (ceiling_of_ratio (total_count regex_search args w)
                                            (default 9 (a_per_page args)))
    ∧ 0 ≤ skip plan.
Proof.
  intros Hp. unfold listing_plan.
  rewrite paginate_ok by lia. eexists; split; [reflexivity|]. cbn.
  rewrite total_pages_is_ceiling by done. lia.
Qed.

Lemma listing_page_in_range_witness :
  ∃ plan, listing_plan match_all (page_request 7 2) sample_world = Ok plan
    ∧ 1 ≤ page plan
    ∧ page plan ≤ Z.max 1 (ceiling_of_ratio
                             (total_count match_all (page_request 7 2) sample_world) 2)
    ∧ 0 ≤ skip plan.
Proof.
  apply (listing_page_in_range match_all (page_request 7 2) sample_world).
  reflexivity.
Defined.

Example listing_plan_sample :
  listing_plan match_all (page_request 7 2) sample_world
  = Ok {| total_pages := 2; page := 2; skip := 2 |}.
Proof. vm_compute. reflexivity. Qed.

(** C2, as stated, fails: with nothing in the store the listing derives
    [total_pages = 0], not the minimum 1 that the claim gives it. *)
Lemma total_pages_has_no_minimum :
  ∃ plan, listing_plan match_all (page_request 1 9) empty_world = Ok plan
    ∧ total_pages plan = 0
    ∧ total_pages plan
      ≠ total_pages_with_minimum (total_count match_all (page_request 1 9) empty_world) 9
    ∧ ¬ 1 ≤ total_pages plan.
Proof.
  exists {| total_pages := 0; page := 1; skip := 0 |}.
  repeat split; [vm_compute; congruence | cbn; lia].
Qed.

(** C2, amended. For every [per_page > 0] and every store the listing
    derives [total_pages = ceil (total_count / per_page)] with no minimum
    (it is 0 exactly when nothing matches); it then clamps the requested
    page to [max 1 (min page total_pages)], which is where the lower bound
    1 comes from, and last computes [skip = max 0 ((page - 1) * per_page)]
    from the clamped page. *)
Theorem listing_pagination_arithmetic regex_search (args : list_args) (w : world) :
  0 < default 9 (a_per_page args) →
  ∃ plan, listing_plan regex_search args w = Ok plan
    ∧ total_pages plan
      = ceiling_of_ratio (total_count regex_search args w) (default 9 (a_per_page args))
    ∧ (total_pages plan = 0 ↔ total_count regex_search args w = 0)
    ∧ 0 ≤ total_pages plan
    ∧ page plan = Z.max 1 (Z.min (default 1 (a_page args)) (total_pages plan))
    ∧ skip plan = Z.max 0 ((page plan - 1) * default 9 (a_per_page args)).
Proof.
  intros Hp. unfold listing_plan.
  rewrite paginate_ok by lia. eexists; split; [reflexivity|]. cbn.
  assert (Ht := count_documents_nonneg
                  (matches regex_search (build_filter_query args)) (properties w)).
  fold (total_count regex_search args w) in Ht.
  set (t := total_count regex_search args w) in *.
  set (n := default 9 (a_per_page args)) in *.
  repeat split; try reflexivity.
  - by apply total_pages_is_ceiling.
  - intros H0. destruct (decide (t = 0)) as [|Hne]; [done|].
    assert (0 ≤ (t - 1) / n) by (apply Z.div_pos; lia). lia.
  - intros ->. replace (0 - 1) with (-1) by lia.
    assert (Hd : -1 / n = -1); [|lia].
    symmetry. apply (Z.div_unique_pos _ _ _ (n - 1)); lia.
  - rewrite total_pages_is_ceiling by done. by apply ceiling_of_ratio_nonneg.
Qed.

Lemma listing_pagination_arithmetic_witness :
  ∃ plan, listing_plan match_all (page_request 1 9) empty_world = Ok plan
    ∧ total_pages plan
      = ceiling_of_ratio (total_count match_all (page_request 1 9) empty_world) 9
    ∧ (total_pages plan = 0 ↔ total_count match_all (page_request 1 9) empty_world = 0)
    ∧ 0 ≤ total_pages plan
    ∧ page plan = Z.max 1 (Z.min 1 (total_pages plan))
    ∧ skip plan = Z.max 0 ((page plan - 1) * 9).
Proof.
  apply (listing_pagination_arithmetic match_all (page_request 1 9) empty_world).
  reflexivity.
Defined.

(** ** Listing with no match *)

Lemma filter_nil_of_count `{HasId A} (q : A → bool) (c : list A) :
  count_documents q c = 0 → List.filter q c = [].
Proof.
  unfold count_documents. intros Hc.
  destruct (List.filter q c); [done|]. simpl in Hc. lia.
Qed.

Lemma limit_nil n : limit n [] = [].
Proof. unfold limit. destruct (n =? 0); [done|]. by rewrite take_nil. Qed.

Section listing_facts.
Variable regex_search : string → string → bool.
Variable sort_documents : string → Z → list document → list document.
Variable regex_valid : string → bool.
Variable sort_valid : string → Z → bool.
(** Sorting rearranges the documents it is given and nothing else. *)
Hypothesis sort_documents_perm :
  ∀ key direction c, sort_documents key direction c ≡ₚ c.

Lemma cursor_documents_nothing_found q s n sort_by sort_order c :
  List.filter (matches regex_search q) c = [] →
  cursor_documents regex_search sort_documents q s n sort_by sort_order c = [].
Proof.
  intros Hf. unfold cursor_documents. rewrite Hf.
  destruct (String.eqb sort_by "").
  - by rewrite drop_nil, limit_nil.
  - rewrite (proj1 (Permutation_nil_r _) (sort_documents_perm sort_by sort_order [])).
    by rewrite drop_nil, limit_nil.
Qed.

(** C6, amended. For every listing request whose queries the store
    accepts (a title pattern that compiles, a sort specification that the
    server takes, [per_page] and the sort direction within eight bytes),
    whose filter combination matches no property and whose [per_page] is
    positive, the listing operation returns an empty page: it raises
    nothing (no division by zero, no negative skip) and leaves the store
    as it was. *)
Theorem listing_empty_when_nothing_matches (args : list_args) (w : world) :
  listing_accepted regex_valid sort_valid args →
  0 < default 9 (a_per_page args) →
  total_count regex_search args w = 0 →
  get_all_properties regex_search sort_documents regex_valid sort_valid args w
  = (Ok (Response (JArr []) 200), w).
Proof.
  intros Ha Hp Hc. rewrite get_all_properties_plan.
  destruct Ha as (Hq & Hrest). rewrite Hq.
  unfold listing_plan. rewrite paginate_ok by lia.
  rewrite cursor_refusal_None; [|by split|].
  - unfold listing_page.
    rewrite cursor_documents_nothing_found by (by apply filter_nil_of_count).
    reflexivity.
  - cbn [skip]. rewrite Hc.
    replace ((0 - 1) / default 9 (a_per_page args)) with (-1)
      by (apply (Z.div_unique_pos _ _ _ (default 9 (a_per_page args) - 1)); lia).
    replace (Z.max 0 ((Z.max 1 (Z.min (default 1 (a_page args)) (-1 + 1)) - 1)
                      * default 9 (a_per_page args))) with 0 by lia.
    reflexivity.
Qed.
End listing_facts.

(** C6, as stated, fails: the title filter below matches no property of
    the (empty) store and [per_page] is the default 9, yet the listing
    operation fails, the server refusing the pattern when the documents
    are counted. *)
Lemma listing_with_refused_pattern_fails :
  total_count match_all (title_request "(") empty_world = 0
  ∧ 0 < default 9 (a_per_page (title_request "("))
  ∧ get_all_properties match_all natural_order sample_regex_valid sample_sort_valid
      (title_request "(") empty_world
    = (Raise OperationFailure, empty_world).
Proof. repeat split; vm_compute; reflexivity. Qed.

(** So does a request whose [per_page] is beyond eight bytes: the count
    and the page plan go through, the cursor does not. *)
Example listing_with_oversized_per_page :
  get_all_properties match_all natural_order sample_regex_valid sample_sort_valid
    (page_request 1 (2 ^ 63)) empty_world
  = (Raise OverflowError, empty_world).
Proof. vm_compute. reflexivity. Qed.

Lemma listing_empty_when_nothing_matches_witness :
  get_all_properties match_all natural_order sample_regex_valid sample_sort_valid
    (location_request "Oslo") sample_world
  = (Ok (Response (JArr []) 200), sample_world).
Proof.
  apply (listing_empty_when_nothing_matches match_all natural_order
           sample_regex_valid sample_sort_valid).
  - intros key direction c. reflexivity.
  - repeat split. right. repeat split.
  - reflexivity.
  - vm_compute. reflexivity.
Defined.

Example listing_second_page :
  get_all_properties match_all natural_order sample_regex_valid sample_sort_valid
    (page_request 2 2) sample_world
  = (Ok (Response
           (JArr [[("id", "64b7f0c2a1d3e4f5a6b7c803");
                   ("title", "Hill Top");
                   ("location", "Goa");
                   ("property_type", "villa");
                   ("description", "sea view");
                   ("price_per_night", "30");
                   ("status", "True");
                   ("img", "a.png")]]) 200),
     sample_world).
Proof. vm_compute. reflexivity. Qed.

(** ** Collections *)

Ltac run :=
  unfold db_hosts, db_guests, db_properties, db_book;
  unfold bind, ret, raise, lift, gets, modify, zoom;
  unfold with_hosts, with_guests, with_properties, with_book, with_session;
  cbn [hosts guests properties book session fst snd].

Section collection_facts.
Context {A : Type} `{HasId A}.
Implicit Types (q : A → bool) (c : list A) (i j : ObjectId).

Lemma has_id_true i (a : A) : has_id i a = true ↔ oid_of a = i.
Proof. unfold has_id. apply N.eqb_eq. Qed.

Lemma find_one_app q c c' :
  find_one q (c ++ c') =
    match find_one q c with Some a => Some a | None => find_one q c' end.
Proof.
  unfold find_one. induction c as [|a c IH]; simpl; [done|].
  destruct (q a); [done|apply IH].
Qed.

Lemma find_one_existsb q c : existsb q c = false ↔ find_one q c = None.
Proof.
  unfold find_one. induction c as [|a c IH]; simpl; [done|].
  destruct (q a); simpl; [split; discriminate|apply IH].
Qed.

Lemma update_first_no_match q f c :
  find_one q c = None → update_first q f c = c.
Proof.
  unfold find_one. induction c as [|a c IH]; simpl; [done|].
  destruct (q a); [discriminate|]. intros Hn. by rewrite IH.
Qed.

Lemma find_one_update_first i j (f : A → A) c :
  (∀ a, oid_of (f a) = oid_of a) →
  find_one (has_id j) (update_first (has_id i) f c) =
    if N.eqb i j then f <$> find_one (has_id j) c else find_one (has_id j) c.
Proof.
  intros Hf. unfold find_one.
  induction c as [|a c IH]; simpl; [by destruct (N.eqb i j)|].
  destruct (has_id i a) eqn:Hi; simpl.
  - apply has_id_true in Hi. unfold has_id at 1. rewrite Hf, Hi.
    destruct (N.eqb_spec i j) as [->|Hne].
    + unfold has_id. rewrite Hi, N.eqb_refl. done.
    + unfold has_id. rewrite Hi. by destruct (N.eqb_spec i j).
  - destruct (has_id j a) eqn:Hj.
    + apply has_id_true in Hj.
      destruct (N.eqb_spec i j) as [->|Hne]; [|done].
      unfold has_id in Hi. rewrite Hj, N.eqb_refl in Hi. discriminate.
    + apply IH.
Qed.

Lemma delete_first_app_new q c a :
  find_one q c = None → q a = true → delete_first q (c ++ [a]) = c.
Proof.
  unfold find_one. induction c as [|b c IH]; simpl; intros Hn Ha.
  - by rewrite Ha.
  - destruct (q b); [discriminate|]. by rewrite IH.
Qed.

Lemma existsb_delete_first q (p : A → bool) c a :
  find_one q c = Some a → p a = false →
  existsb p (delete_first q c) = existsb p c.
Proof.
  unfold find_one. induction c as [|b c IH]; simpl; [done|].
  destruct (q b).
  - intros [= ->] Hp. by rewrite Hp.
  - intros Hf Hp. simpl. by rewrite IH.
Qed.
End collection_facts.

(** ** What the two ledger handlers do, case by case *)

Lemma status_update_encodable b : encodable_fields {["status" := VBool b]}.
Proof. by apply map_Forall_singleton. Qed.

Lemma status_update_plain b : plain_fields {["status" := VBool b]}.
Proof.
  split.
  - apply map_non_empty_singleton.
  - by apply map_Forall_singleton.
Qed.

Lemma update_one_set_run q upd c :
  encodable_fields upd → plain_fields upd →
  update_one_set q upd c =
    match find_one q c with
    | None => (Ok 0, c)
    | Some _ =>
        if bool_decide (is_Some (upd !! "_id")) then (Raise WriteError, c)
        else (Ok 1, update_first q (set_fields upd) c)
    end.
Proof.
  intros He Hp. unfold update_one_set.
  by rewrite (bool_decide_true _ He), (bool_decide_true _ Hp).
Qed.

Lemma update_status_run b i c :
  update_one_set (has_id i) {["status" := VBool b]} c =
    (Ok (match find_one (has_id i) c with Some _ => 1 | None => 0 end),
     set_status b i c).
Proof.
  rewrite update_one_set_run
    by (apply status_update_encodable || apply status_update_plain).
  unfold set_status.
  destruct (find_one (has_id i) c) eqn:Hf.
  - reflexivity.
  - by rewrite update_first_no_match.
Qed.

Lemma post_booking_run new_id data w :
  post_property_to_book_collection new_id data w =
    if negb (encodable (booking_of new_id data)) then (Raise OverflowError, w)
    else if existsb (has_id new_id) (book w) then (Raise DuplicateKeyError, w)
    else
      let w1 := with_book (book w ++ [booking_of new_id data]) w in
      if truthy (data_get data "property_id") then
        match ObjectId_of (data_get data "property_id") with
        | Ok i => (Ok (booking_created new_id),
                   with_properties (set_status false i (properties w)) w1)
        | Raise e => (Raise e, w1)
        end
      else (Ok (booking_created new_id), w1).
Proof.
  destruct w as [h g p b s].
  unfold post_property_to_book_collection, insert_one. run.
  fold (booking_of new_id data).
  change (oid_of (booking_of new_id data)) with new_id.
  destruct (encodable (booking_of new_id data)); [|reflexivity]. cbn [negb].
  destruct (existsb (has_id new_id) b); [reflexivity|]. cbn.
  destruct (truthy (data_get data "property_id")); [|reflexivity].
  destruct (ObjectId_of (data_get data "property_id")); [|reflexivity].
  rewrite update_status_run. reflexivity.
Qed.

Lemma delete_booking_run booking_id w :
  delete_book_data booking_id w =
    match ObjectId_of_str booking_id with
    | Raise e => (Raise e, w)
    | Ok oid =>
        match find_one (has_id oid) (book w) with
        | None => (Ok booking_not_found, w)
        | Some entry =>
            let w1 := with_book (delete_first (has_id oid) (book w)) w in
            if truthy (b_property_id entry) then
              match ObjectId_of (b_property_id entry) with
              | Ok i => (Ok booking_deleted,
                         with_properties (set_status true i (properties w)) w1)
              | Raise e => (Raise e, w1)
              end
            else (Ok booking_deleted, w1)
        end
    end.
Proof.
  destruct w as [h g p b s].
  unfold delete_book_data. run.
  destruct (ObjectId_of_str booking_id) as [oid|e]; [|reflexivity].
  destruct (find_one (has_id oid) b) as [entry|] eqn:Hf; [|reflexivity].
  unfold delete_one. cbn [book]. rewrite Hf. cbn.
  destruct (truthy (b_property_id entry)); [|reflexivity].
  destruct (ObjectId_of (b_property_id entry)); [|reflexivity].
  rewrite update_status_run. reflexivity.
Qed.

(** ** Facts about status writes *)

Lemma set_fields_id upd d : oid_of (set_fields upd d) = oid_of d.
Proof. reflexivity. Qed.

Lemma set_status_absent b i c : find_one (has_id i) c = None → set_status b i c = c.
Proof. apply update_first_no_match. Qed.

Lemma find_one_set_status b i j c :
  find_one (has_id j) (set_status b i c) =
    if N.eqb i j then set_fields {["status" := VBool b]} <$> find_one (has_id j) c
    else find_one (has_id j) c.
Proof. unfold set_status. apply find_one_update_first, set_fields_id. Qed.

Lemma status_after_set b d :
  doc_fields (set_fields {["status" := VBool b]} d) !! "status" = Some (VBool b).
Proof.
  unfold set_fields; cbn. apply lookup_union_Some_l, lookup_singleton_eq.
Qed.

Lemma ObjectId_of_str_truthy s i : ObjectId_of_str s = Ok i → truthy (VStr s) = true.
Proof.
  unfold ObjectId_of_str. destruct s as [|a s]; [discriminate|done].
Qed.

Lemma designates_Some v i :
  designates v = Some i ↔ truthy v = true ∧ ObjectId_of v = Ok i.
Proof.
  unfold designates. destruct (truthy v); [|by split; [|intros []]].
  destruct (ObjectId_of v) as [j|e]; split.
  - by intros [= ->].
  - by intros [_ [= ->]].
  - done.
  - by intros [].
Qed.

(** ** Booking and unbooking one property *)

(** C3. For every property P of the catalog, creating a booking that
    references P sets P's status to false, and deleting that same booking
    then sets it back to true.  (A booking is created when the store
    takes the record: its fields are values BSON encodes, and [new_id],
    the id that [ObjectId()] hands the booking, is twelve bytes not yet
    in the ledger.) *)
Theorem booking_round_trip (w : world) (new_id pid : ObjectId)
    (data : gmap string value) (pid_s : string) (P : document) :
  find_one (has_id pid) (properties w) = Some P →
  data !! "property_id" = Some (VStr pid_s) →
  ObjectId_of_str pid_s = Ok pid →
  encodable (booking_of new_id data) = true →
  valid_oid new_id →
  existsb (has_id new_id) (book w) = false →
  let created := post_property_to_book_collection new_id data w in
  let deleted := delete_book_data (str_oid new_id) (snd created) in
  fst created = Ok (booking_created new_id)
  ∧ property_status pid (snd created) = Some (VBool false)
  ∧ fst deleted = Ok booking_deleted
  ∧ property_status pid (snd deleted) = Some (VBool true)
  ∧ book (snd deleted) = book w.
Proof.
  intros HP Hdata Hpid Henc Hvalid Hfresh created deleted.
  assert (Hget : data_get data "property_id" = VStr pid_s)
    by (unfold data_get; by rewrite Hdata).
  assert (Hcreated : created =
            (Ok (booking_created new_id),
             with_properties (set_status false pid (properties w))
               (with_book (book w ++ [booking_of new_id data]) w))).
  { subst created. rewrite post_booking_run, Henc, Hfresh, Hget.
    rewrite (ObjectId_of_str_truthy _ _ Hpid). cbn. by rewrite Hpid. }
  assert (Hentry : find_one (has_id new_id) (book w ++ [booking_of new_id data])
                   = Some (booking_of new_id data)).
  { rewrite find_one_app. apply find_one_existsb in Hfresh. rewrite Hfresh.
    unfold find_one; cbn. unfold has_id at 1; cbn. by rewrite N.eqb_refl. }
  assert (Hdeleted : deleted =
            (Ok booking_deleted,
             with_properties
               (set_status true pid (set_status false pid (properties w)))
               (with_book (book w) w))).
  { subst deleted. rewrite Hcreated. cbn [snd].
    rewrite delete_booking_run, (ObjectId_of_str_str _ Hvalid).
    destruct w as [h g p b s]; cbn [book with_properties with_book properties] in *.
    rewrite Hentry. cbn [b_property_id booking_of]. rewrite Hget.
    rewrite (ObjectId_of_str_truthy _ _ Hpid). cbn. rewrite Hpid.
    rewrite delete_first_app_new; [reflexivity| |].
    - by apply find_one_existsb.
    - unfold has_id; cbn. apply N.eqb_refl. }
  rewrite Hcreated, Hdeleted. cbn [fst snd].
  destruct w as [h g p b s]; cbn [book with_properties with_book properties] in *.
  unfold property_status, with_properties, with_book; cbn [properties book].
  rewrite !find_one_set_status, N.eqb_refl, HP. cbn.
  repeat split; try reflexivity.
  - apply lookup_union_Some_l, lookup_singleton_eq.
  - apply lookup_union_Some_l, lookup_singleton_eq.
Qed.

Lemma booking_round_trip_witness :
  let created :=
    post_property_to_book_collection oid_b1 (booking_request oid_p1) sample_world in
  let deleted := delete_book_data (str_oid oid_b1) (snd created) in
  fst created = Ok (booking_created oid_b1)
  ∧ property_status oid_p1 (snd created) = Some (VBool false)
  ∧ fst deleted = Ok booking_deleted
  ∧ property_status oid_p1 (snd deleted) = Some (VBool true)
  ∧ book (snd deleted) = book sample_world.
Proof.
  apply (booking_round_trip sample_world oid_b1 oid_p1 (booking_request oid_p1)
           (str_oid oid_p1) (sample_property oid_p1 "Casa Azul" 50 true)).
  - reflexivity.
  - reflexivity.
  - reflexivity.
  - reflexivity.
  - reflexivity.
  - reflexivity.
Defined.

(** A nightly price beyond 64 bits: the store takes no such record, and
    the ledger and the catalog stay as they were. *)
Example booking_with_oversized_price :
  post_property_to_book_collection oid_b1
    (<["price_per_night" := VInt (2 ^ 63)]> (booking_request oid_p1)) sample_world
  = (Raise OverflowError, sample_world).
Proof. vm_compute. reflexivity. Qed.

(** ** Deleting a booking that is not there *)

(** C5, as stated, fails: ["abc"] is the id of no stored booking, yet the
    delete operation does not answer not-found for it; the id never gets
    past [ObjectId(booking_id)]. *)
Lemma delete_malformed_id_is_not_not_found :
  booking_absent "abc" booked_world
  ∧ delete_book_data "abc" booked_world = (Raise InvalidId, booked_world)
  ∧ fst (delete_book_data "abc" booked_world) ≠ Ok booking_not_found.
Proof.
  split; [|split].
  - intros oid Hoid. discriminate Hoid.
  - reflexivity.
  - discriminate.
Qed.

(** C5, amended. For every booking id that is not in the booking store
    and is either 24 hexadecimal digits or a string that [ObjectId]
    refuses, the delete operation leaves the whole state unchanged; it
    returns the not-found result for the 24 hexadecimal digits and raises
    [InvalidId] for the refused string.  (The 24-character strings with
    blanks that [ObjectId] takes for fewer than twelve bytes are left
    out: [settled_id].) *)
Theorem delete_absent_booking (w : world) (booking_id : string) :
  booking_absent booking_id w →
  settled_id booking_id →
  delete_book_data booking_id w =
    (match ObjectId_of_str booking_id with
     | Ok _ => Ok booking_not_found
     | Raise _ => Raise InvalidId
     end, w).
Proof.
  intros Habsent Hsettled. rewrite delete_booking_run.
  destruct (ObjectId_of_str booking_id) as [oid|e] eqn:Hoid.
  - by rewrite (Habsent oid).
  - destruct (ObjectId_of_str_raise _ _ Hoid) as [->| ->]; [reflexivity|].
    by destruct Hsettled.
Qed.

Lemma delete_absent_booking_witness :
  delete_book_data (str_oid oid_b2) booked_world = (Ok booking_not_found, booked_world).
Proof.
  apply (delete_absent_booking booked_world (str_oid oid_b2)).
  - intros oid Hoid. vm_compute in Hoid. injection Hoid as <-. reflexivity.
  - unfold settled_id. vm_compute. discriminate.
Defined.

(** ** Updating a property *)

Lemma update_property_run property_id data w :
  update_property property_id data w =
    match ObjectId_of_str property_id with
    | Raise e => (Raise e, w)
    | Ok oid =>
        if negb (bool_decide (encodable_fields data)) then (Raise OverflowError, w)
        else if negb (bool_decide (plain_fields data)) then (Raise Unmodelled, w)
        else
          match find_one (has_id oid) (properties w) with
          | None => (Ok property_updated, w)
          | Some _ =>
              if bool_decide (is_Some (data !! "_id")) then (Raise WriteError, w)
              else (Ok property_updated,
                    with_properties
                      (update_first (has_id oid) (set_fields data) (properties w)) w)
          end
    end.
Proof.
  destruct w as [h g p b s]. unfold update_property. run.
  destruct (ObjectId_of_str property_id) as [oid|e]; [|reflexivity].
  unfold update_one_set.
  destruct (bool_decide (encodable_fields data)); [|reflexivity].
  destruct (bool_decide (plain_fields data)); [|reflexivity]. cbn [negb].
  destruct (find_one (has_id oid) p); [|reflexivity].
  destruct (bool_decide _); reflexivity.
Qed.

Lemma update_property_plain_run property_id data w :
  plain_body data →
  update_property property_id data w =
    match ObjectId_of_str property_id with
    | Raise e => (Raise e, w)
    | Ok oid =>
        match find_one (has_id oid) (properties w) with
        | None => (Ok property_updated, w)
        | Some _ =>
            if bool_decide (is_Some (data !! "_id")) then (Raise WriteError, w)
            else (Ok property_updated,
                  with_properties
                    (update_first (has_id oid) (set_fields data) (properties w)) w)
        end
    end.
Proof.
  intros [He Hp]. rewrite update_property_run.
  by rewrite (bool_decide_true _ He), (bool_decide_true _ Hp).
Qed.

(** C9, as stated, fails: for the property id ["abc"] the update
    operation returns no success message, it raises. *)
Lemma update_malformed_id_raises :
  update_property "abc" (<["title" := VStr "Casa Verde"]> ∅) sample_world
  = (Raise InvalidId, sample_world)
  ∧ fst (update_property "abc" (<["title" := VStr "Casa Verde"]> ∅) sample_world)
    ≠ Ok property_updated.
Proof. split; [reflexivity|discriminate]. Qed.

(** C9, amended. For every body of one or more plain field names (not
    empty, no dot, no leading dollar sign) with values that BSON encodes:
    for every property id of 24 hexadecimal digits, including ids that
    match no stored property, the update operation returns the success
    message, never not-found, provided no property matches or the body
    does not name [_id], and when the id matches no stored property the
    store is left unchanged; for every property id that [ObjectId]
    refuses, the operation raises [InvalidId] and the store is left
    unchanged. *)
Theorem update_property_never_not_found (w : world) (property_id : string)
    (data : gmap string value) :
  plain_body data →
  (∀ oid, ObjectId_of_str property_id = Ok oid →
     find_one (has_id oid) (properties w) = None ∨ data !! "_id" = None →
     fst (update_property property_id data w) = Ok property_updated
     ∧ (find_one (has_id oid) (properties w) = None →
        snd (update_property property_id data w) = w))
  ∧ (ObjectId_of_str property_id = Raise InvalidId →
     update_property property_id data w = (Raise InvalidId, w)).
Proof.
  intros Hplain. rewrite (update_property_plain_run _ _ _ Hplain). split.
  - intros oid Hoid Hcase. rewrite Hoid.
    destruct (find_one (has_id oid) (properties w)) as [d|] eqn:Hf.
    + destruct Hcase as [|Hid]; [discriminate|]. rewrite Hid.
      rewrite bool_decide_false by (intros [? ?]; discriminate).
      split; [reflexivity|discriminate].
    + split; reflexivity.
  - by intros ->.
Qed.

Lemma plain_body_one_field k v :
  encodable_value v = true → plain_key k = true → plain_body (<[k := v]> ∅).
Proof.
  intros Hv Hk. rewrite insert_empty. split; [|split].
  - by apply map_Forall_singleton.
  - apply map_non_empty_singleton.
  - by apply map_Forall_singleton.
Qed.

Lemma update_property_never_not_found_witness :
  (∀ oid, ObjectId_of_str (str_oid oid_b1) = Ok oid →
     find_one (has_id oid) (properties sample_world) = None
     ∨ (<["title" := VStr "Casa Verde"]> ∅ : gmap string value) !! "_id" = None →
     fst (update_property (str_oid oid_b1) (<["title" := VStr "Casa Verde"]> ∅)
            sample_world) = Ok property_updated
     ∧ (find_one (has_id oid) (properties sample_world) = None →
        snd (update_property (str_oid oid_b1) (<["title" := VStr "Casa Verde"]> ∅)
               sample_world) = sample_world))
  ∧ (ObjectId_of_str (str_oid oid_b1) = Raise InvalidId →
     update_property (str_oid oid_b1) (<["title" := VStr "Casa Verde"]> ∅)
       sample_world = (Raise InvalidId, sample_world)).
Proof.
  apply (update_property_never_not_found sample_world (str_oid oid_b1)
           (<["title" := VStr "Casa Verde"]> ∅)).
  apply plain_body_one_field; reflexivity.
Defined.

(** A body that [$set] does not take as field names to overwrite, and a
    value beyond 64 bits. *)
Example update_property_refusals :
  update_property (str_oid oid_p1) ∅ sample_world = (Raise Unmodelled, sample_world)
  ∧ update_property (str_oid oid_p1) (<["title.x" := VStr "Casa Verde"]> ∅) sample_world
    = (Raise Unmodelled, sample_world)
  ∧ update_property (str_oid oid_p1) (<["price_per_night" := VInt (2 ^ 63)]> ∅)
      sample_world = (Raise OverflowError, sample_world).
Proof.
  split; [|split]; vm_compute; reflexivity.
Qed.

Example update_property_merges :
  (find_one (has_id oid_p1)
     (properties (snd (update_property (str_oid oid_p1)
                         (<["title" := VStr "Casa Verde"]> ∅) sample_world)))
   ≫= λ d, doc_fields d !! "title") = Some (VStr "Casa Verde").
Proof. vm_compute. reflexivity. Qed.

(** ** Booking a property that is not in the catalog *)

(** C10, as stated, fails: the request below refers to no property; its
    booking is stored, but the operation raises instead of returning the
    new id with success. *)
Lemma booking_with_malformed_property_id_raises :
  refers_to_no_property (data_get stray_request "property_id") sample_world
  ∧ fst (post_property_to_book_collection oid_b1 stray_request sample_world)
    = Raise InvalidId
  ∧ book (snd (post_property_to_book_collection oid_b1 stray_request sample_world))
    = [booking_of oid_b1 stray_request].
Proof.
  split; [|split].
  - intros i Hi. vm_compute in Hi. discriminate Hi.
  - vm_compute. reflexivity.
  - vm_compute. reflexivity.
Qed.

(** C10, amended. For every booking-creation request whose fields are
    values BSON encodes and whose [property_id] refers to no property of
    the catalog, and is not one of the 24-character strings with blanks
    that [ObjectId] takes for fewer than twelve bytes, the booking record
    is persisted and no property changes; the new booking id is returned
    with success when the [property_id] is absent or falsy or is 24
    hexadecimal digits, and otherwise the operation raises [InvalidId] or
    [TypeError] after the booking was stored.  ([new_id], the id from
    [ObjectId()], is not yet in the ledger.) *)
Theorem booking_without_property (w : world) (new_id : ObjectId)
    (data : gmap string value) :
  existsb (has_id new_id) (book w) = false →
  encodable (booking_of new_id data) = true →
  refers_to_no_property (data_get data "property_id") w →
  settled_property_id (data_get data "property_id") →
  let r := post_property_to_book_collection new_id data w in
  snd r = with_book (book w ++ [booking_of new_id data]) w
  ∧ properties (snd r) = properties w
  ∧ (usable_property_id (data_get data "property_id") →
     fst r = Ok (booking_created new_id))
  ∧ (¬ usable_property_id (data_get data "property_id") →
     fst r = Raise InvalidId ∨ fst r = Raise TypeError).
Proof.
  intros Hfresh Henc Hnone Hsettled r. subst r.
  rewrite post_booking_run, Henc, Hfresh. unfold usable_property_id.
  unfold settled_property_id in Hsettled.
  set (pid := data_get data "property_id") in *. cbn [negb].
  destruct (truthy pid) eqn:Ht.
  - destruct (ObjectId_of pid) as [i|e] eqn:Hi; cbn [fst snd].
    + rewrite set_status_absent
        by (apply Hnone, designates_Some; by split).
      destruct w; repeat split; try done.
      intros Hn. destruct Hn. right. by exists i.
    + repeat split; try (by destruct w).
      * intros [|[i ?]]; discriminate.
      * intros _. destruct pid as [| | |s]; cbn in Hi;
          try (injection Hi as <-; by right).
        destruct (ObjectId_of_str_raise _ _ Hi) as [->| ->]; [by left|].
        by destruct Hsettled.
  - cbn [fst snd]. repeat split; try (by destruct w).
    intros Hn. destruct Hn. by left.
Qed.

Lemma booking_without_property_witness :
  let r := post_property_to_book_collection oid_b1 (booking_request oid_p1) empty_world in
  snd r = with_book (book empty_world ++ [booking_of oid_b1 (booking_request oid_p1)])
            empty_world
  ∧ properties (snd r) = properties empty_world
  ∧ (usable_property_id (data_get (booking_request oid_p1) "property_id") →
     fst r = Ok (booking_created oid_b1))
  ∧ (¬ usable_property_id (data_get (booking_request oid_p1) "property_id") →
     fst r = Raise InvalidId ∨ fst r = Raise TypeError).
Proof.
  apply (booking_without_property empty_world oid_b1 (booking_request oid_p1)).
  - reflexivity.
  - reflexivity.
  - intros i Hi. reflexivity.
  - intros _. vm_compute. discriminate.
Defined.

(** ** The availability invariant *)

Lemma booked_with_properties i c w : booked i (with_properties c w) = booked i w.
Proof. reflexivity. Qed.

Lemma booked_after_insert i b w :
  booked i (with_book (book w ++ [b]) w) = booked i w || references i b.
Proof. unfold booked; cbn. rewrite existsb_app; cbn. by rewrite orb_false_r. Qed.

Lemma references_designates i b :
  references i b = true ↔ designates (b_property_id b) = Some i.
Proof. unfold references. apply bool_decide_eq_true. Qed.

Lemma references_other i j b :
  designates (b_property_id b) = Some j → i ≠ j → references i b = false.
Proof.
  intros Hd Hne. unfold references. rewrite Hd.
  apply bool_decide_eq_false. congruence.
Qed.

Lemma references_nothing i b :
  designates (b_property_id b) = None → references i b = false.
Proof. intros Hd. unfold references. rewrite Hd. by apply bool_decide_eq_false. Qed.

Lemma designates_raise v e : ObjectId_of v = Raise e → designates v = None.
Proof. intros He. unfold designates. rewrite He. by destruct (truthy v). Qed.

Lemma designates_falsy v : truthy v = false → designates v = None.
Proof. intros Ht. unfold designates. by rewrite Ht. Qed.

(** A status write on property [j] keeps the invariant when [j] ends up
    with the status that the ledger calls for and no other property saw
    its bookings change. *)
Lemma status_consistent_write (w w1 : world) (b : bool) (j : ObjectId) :
  status_consistent w →
  (∀ i, i ≠ j → booked i w1 = booked i w) →
  booked j w1 = negb b →
  status_consistent (with_properties (set_status b j (properties w)) w1).
Proof.
  intros Hw Hother Hj i d. cbn [properties with_properties].
  rewrite find_one_set_status, booked_with_properties.
  destruct (N.eqb_spec j i) as [<-|Hne].
  - destruct (find_one (has_id j) (properties w)) as [d0|]; [|discriminate].
    intros [= <-]. rewrite status_after_set, Hj. by destruct b.
  - intros Hf. rewrite Hother by congruence. by apply Hw.
Qed.

(** Without a status write the invariant stays when no property saw its
    bookings change. *)
Lemma status_consistent_same_bookings (w w1 : world) :
  status_consistent w →
  properties w1 = properties w →
  (∀ i, booked i w1 = booked i w) →
  status_consistent w1.
Proof.
  intros Hw Hp Hb i d. rewrite Hp, Hb. apply Hw.
Qed.

(** Creating a booking keeps the invariant, whatever the request. *)
Lemma create_keeps_status_consistent new_id data w :
  status_consistent w → status_consistent (exec (Create new_id data) w).
Proof.
  intros Hw. unfold exec, run_op. rewrite post_booking_run.
  destruct (encodable (booking_of new_id data)); [cbn [negb]|exact Hw].
  destruct (existsb (has_id new_id) (book w)); [exact Hw|].
  set (pid := data_get data "property_id").
  assert (Hpid : b_property_id (booking_of new_id data) = pid) by reflexivity.
  destruct (truthy pid) eqn:Ht; [destruct (ObjectId_of pid) as [j|e] eqn:Hj|];
    cbn [snd].
  - assert (Hd : designates pid = Some j) by (apply designates_Some; by split).
    apply status_consistent_write; [done| |].
    + intros i Hne. rewrite booked_after_insert.
      rewrite (references_other i j) by (by rewrite ?Hpid). apply orb_false_r.
    + rewrite booked_after_insert.
      rewrite (proj2 (references_designates j _)) by (by rewrite Hpid).
      apply orb_true_r.
  - apply (status_consistent_same_bookings w); [done|by destruct w|].
    intros i. rewrite booked_after_insert, references_nothing; [apply orb_false_r|].
    rewrite Hpid. by apply (designates_raise _ e).
  - apply (status_consistent_same_bookings w); [done|by destruct w|].
    intros i. rewrite booked_after_insert, references_nothing; [apply orb_false_r|].
    rewrite Hpid. by apply designates_falsy.
Qed.

(** Deleting a booking keeps the invariant when no remaining booking
    references the property of the deleted one. *)
Lemma delete_keeps_status_consistent booking_id w :
  status_consistent w → last_reference w (Delete booking_id) →
  status_consistent (exec (Delete booking_id) w).
Proof.
  intros Hw Hlast. unfold last_reference in Hlast.
  unfold exec, run_op in *. rewrite delete_booking_run in *.
  destruct (ObjectId_of_str booking_id) as [oid|e]; [|exact Hw].
  destruct (find_one (has_id oid) (book w)) as [entry|] eqn:Hf; [|exact Hw].
  cbn zeta in *.
  assert (Hkeep : ∀ i, references i entry = false →
            booked i (with_book (delete_first (has_id oid) (book w)) w) = booked i w).
  { intros i Hi. unfold booked; cbn. by apply (existsb_delete_first _ _ _ entry). }
  destruct (truthy (b_property_id entry)) eqn:Ht;
    [destruct (ObjectId_of (b_property_id entry)) as [j|e] eqn:Hj|]; cbn [snd] in *.
  - assert (Hd : designates (b_property_id entry) = Some j)
      by (apply designates_Some; by split).
    apply status_consistent_write; [done| |].
    + intros i Hne. apply Hkeep. by apply (references_other i j).
    + rewrite <- (booked_with_properties j (set_status true j (properties w))).
      by apply (Hlast oid entry j).
  - apply (status_consistent_same_bookings w); [done|by destruct w|].
    intros i. apply Hkeep, references_nothing. by apply (designates_raise _ e).
  - apply (status_consistent_same_bookings w); [done|by destruct w|].
    intros i. apply Hkeep, references_nothing. by apply designates_falsy.
Qed.

Lemma status_consistent_status w i d :
  status_consistent w → find_one (has_id i) (properties w) = Some d →
  property_status i w = Some (VBool (negb (booked i w))).
Proof. intros Hw Hf. unfold property_status. rewrite Hf. cbn. by apply Hw. Qed.

Lemma sample_world_consistent : status_consistent sample_world.
Proof.
  intros i d Hf. apply find_some in Hf as [Hin _].
  cbn in Hin. destruct Hin as [<-|[<-|[<-|[]]]]; reflexivity.
Qed.

(** C4, as stated, fails: from the sample catalog, two bookings on the
    first property followed by the deletion of one of them reach a state
    where that property is still referenced by a booking and has status
    true. *)
Lemma second_booking_breaks_status :
  let w1 := exec (Create oid_b1 (booking_request oid_p1)) sample_world in
  let w2 := exec (Create oid_b2 (booking_request oid_p1)) w1 in
  let w3 := exec (Delete (str_oid oid_b1)) w2 in
  status_consistent sample_world
  ∧ ledger_run any_op sample_world w3
  ∧ booked oid_p1 w3 = true
  ∧ property_status oid_p1 w3 = Some (VBool true)
  ∧ ¬ status_consistent w3.
Proof.
  intros w1 w2 w3.
  assert (Hb : booked oid_p1 w3 = true) by (vm_compute; reflexivity).
  assert (Hs : property_status oid_p1 w3 = Some (VBool true))
    by (vm_compute; reflexivity).
  split; [apply sample_world_consistent|].
  split; [repeat (apply run_step; [|exact I]); apply run_here|].
  split; [exact Hb|]. split; [exact Hs|].
  intros Hw3.
  destruct (find_one (has_id oid_p1) (properties w3)) as [d|] eqn:Hf;
    [|vm_compute in Hf; discriminate Hf].
  rewrite (status_consistent_status w3 oid_p1 d Hw3 Hf), Hb in Hs.
  discriminate Hs.
Qed.

(** C4, amended. In every state that booking-ledger operations reach from
    a consistent one, a property's status is false while a booking
    references it and true otherwise, as long as no booking is deleted
    while another booking still references the same property: every
    booking create preserves the invariant, and so does every booking
    delete that takes away the last reference to its property. *)
Theorem status_consistent_preserved (w w' : world) :
  status_consistent w →
  ledger_run last_reference w w' →
  status_consistent w'.
Proof.
  intros Hw Hrun. induction Hrun as [w|w w' op Hrun IH Hallowed]; [exact Hw|].
  destruct op as [new_id data|booking_id].
  - by apply create_keeps_status_consistent, IH.
  - apply delete_keeps_status_consistent; [by apply IH|exact Hallowed].
Qed.

Lemma status_consistent_preserved_witness :
  status_consistent
    (exec (Delete (str_oid oid_b1))
       (exec (Create oid_b1 (booking_request oid_p1)) sample_world)).
Proof.
  apply (status_consistent_preserved sample_world).
  - apply sample_world_consistent.
  - apply run_step; [apply run_step; [apply run_here|exact I]|].
    intros oid entry i Hoid Hentry Hi.
    vm_compute in Hoid. injection Hoid as <-.
    vm_compute in Hentry. injection Hentry as <-.
    vm_compute in Hi. injection Hi as <-.
    vm_compute. reflexivity.
Defined.

(** ** Signup and login *)

Section auth_facts.
Variable hashpw : string → string → outcome string.
Variable checkpw : string → string → outcome bool.

Lemma signup_run r new_id salt data w :
  signup hashpw r new_id salt data w =
    if encodable_value (data_get data "email") then
      match find_one (email_is (data_get data "email")) (partition r w) with
      | Some _ => (Ok email_exists, w)
      | None =>
          match hash_password hashpw salt (data_get data "password") with
          | Raise e => (Raise e, w)
          | Ok hashed =>
              if existsb (has_id new_id) (partition r w)
              then (Raise DuplicateKeyError, w)
              else (Ok (signed_up r new_id),
                    add_credential r
                      (Credential new_id (data_get data "email") hashed) w)
          end
      end
    else (Raise OverflowError, w).
Proof.
  destruct w as [h g p b s].
  destruct r; unfold signup, host_signup, guest_signup, partition, find_by_email; run;
    (destruct (encodable_value (data_get data "email")) eqn:He; [|reflexivity]).
  - destruct (find_one _ h); [reflexivity|].
    destruct (hash_password _ _ _); [|reflexivity].
    unfold insert_one, encodable, credential_Bson.
    change (oid_of (Credential new_id _ _)) with new_id.
    cbn [hosts cred_email]. rewrite He. cbn [negb].
    destruct (existsb _ h); reflexivity.
  - destruct (find_one _ g); [reflexivity|].
    destruct (hash_password _ _ _); [|reflexivity].
    unfold insert_one, encodable, credential_Bson.
    change (oid_of (Credential new_id _ _)) with new_id.
    cbn [guests cred_email]. rewrite He. cbn [negb].
    destruct (existsb _ g); reflexivity.
Qed.

Lemma login_run r data w :
  login checkpw r data w =
    if encodable_value (data_get data "email") then
      match find_one (email_is (data_get data "email")) (partition r w) with
      | None => (Ok invalid_credentials, w)
      | Some c =>
          match verify_password checkpw (cred_password c) (data_get data "password") with
          | Raise e => (Raise e, w)
          | Ok false => (Ok invalid_credentials, w)
          | Ok true =>
              match r with
              | Host =>
                  (Ok (Response (JObj [("message", "Host login successful");
                                       ("host_id", str_oid (cred_id c))]) 200),
                   with_session (<["user_role" := "host"]> (session w)) w)
              | Guest =>
                  (Ok (Response (JObj [("message", "Guest login successful")]) 200),
                   with_session (<["user_role" := "guest"]> (session w)) w)
              end
          end
      end
    else (Raise OverflowError, w).
Proof.
  destruct w as [h g p b s].
  destruct r; unfold login, host_login, guest_login, partition, find_by_email; run;
    (destruct (encodable_value (data_get data "email")); [|reflexivity]).
  - destruct (find_one _ h) as [c|]; [|reflexivity].
    destruct (verify_password _ _ _) as [[]|]; reflexivity.
  - destruct (find_one _ g) as [c|]; [|reflexivity].
    destruct (verify_password _ _ _) as [[]|]; reflexivity.
Qed.

(** C7. For every email [e] that is already present in a role's
    partition, signup for that role with [e] fails with Conflict and adds
    no record; signup with the same [e] under the other role partition,
    where [e] is not present, succeeds and returns the fresh identity.
    (A signup request carries an email that BSON encodes and a password
    that is a string bcrypt hashes; [new_id] is the id that the store
    mints, not yet in the partition.) *)
Theorem signup_namespaces (r : role) (w : world) (new_id : ObjectId)
    (salt : string) (data : gmap string value) (c : credential) :
  encodable_value (data_get data "email") = true →
  find_one (email_is (data_get data "email")) (partition r w) = Some c →
  signup hashpw r new_id salt data w = (Ok email_exists, w)
  ∧ ∀ p hashed,
      find_one (email_is (data_get data "email")) (partition (other_role r) w) = None →
      data_get data "password" = VStr p →
      hashpw p salt = Ok hashed →
      existsb (has_id new_id) (partition (other_role r) w) = false →
      signup hashpw (other_role r) new_id salt data w
      = (Ok (signed_up (other_role r) new_id),
         add_credential (other_role r)
           (Credential new_id (data_get data "email") hashed) w).
Proof.
  intros Henc Hpresent. split.
  - by rewrite signup_run, Henc, Hpresent.
  - intros p hashed Habsent Hp Hhash Hfresh.
    rewrite signup_run, Henc, Habsent, Hp. cbn [hash_password].
    by rewrite Hhash, Hfresh.
Qed.

(** C8, amended. For every credential store, login returns one and the
    same Unauthorized result, and changes nothing, whether the email is
    absent entirely or the email exists and the password is a string
    that bcrypt checks against the stored hash and finds not to match;
    the response of a login that fails in one of these two ways does not
    tell which.  (The email is a value that BSON encodes.) *)
Theorem login_failure_uniform (r : role) (w w' : world)
    (data data' : gmap string value) :
  rejected checkpw r w data →
  rejected checkpw r w' data' →
  login checkpw r data w = (Ok invalid_credentials, w)
  ∧ fst (login checkpw r data' w') = fst (login checkpw r data w).
Proof.
  assert (Hone : ∀ w data, rejected checkpw r w data →
                   login checkpw r data w = (Ok invalid_credentials, w)).
  { clear. intros w data [Henc Hrej]. rewrite login_run, Henc.
    destruct (find_one _ _) as [c|]; [|reflexivity].
    destruct Hrej as (p & -> & Hp). cbn. by rewrite Hp. }
  intros H H'. by rewrite (Hone w data H), (Hone w' data' H').
Qed.
End auth_facts.

Example signup_then_login :
  let w1 := snd (host_signup sample_hashpw oid_u1 "s1"
                   (credentials "ann@example.org" "tulip") empty_world) in
  w1 = host_only_world
  ∧ fst (host_login sample_checkpw (credentials "ann@example.org" "tulip") w1)
    = Ok (Response (JObj [("message", "Host login successful");
                          ("host_id", str_oid oid_u1)]) 200)
  ∧ session (snd (host_login sample_checkpw (credentials "ann@example.org" "tulip") w1))
      !! "user_role" = Some "host".
Proof. repeat split; vm_compute; reflexivity. Qed.

(** An email held by both partitions is refused by both signups. *)
Example signup_held_by_both_roles :
  let data := credentials "ann@example.org" "lily" in
  signup sample_hashpw Host oid_b1 "s3" data host_and_guest_world
  = (Ok email_exists, host_and_guest_world)
  ∧ signup sample_hashpw Guest oid_b1 "s3" data host_and_guest_world
    = (Ok email_exists, host_and_guest_world).
Proof. split; vm_compute; reflexivity. Qed.

Lemma signup_namespaces_witness :
  let data := credentials "ann@example.org" "lily" in
  signup sample_hashpw Host oid_u2 "s3" data host_only_world
  = (Ok email_exists, host_only_world)
  ∧ signup sample_hashpw Guest oid_u2 "s3" data host_only_world
    = (Ok (signed_up Guest oid_u2),
       add_credential Guest
         (Credential oid_u2 (VStr "ann@example.org") (sample_hash "lily" "s3"))
         host_only_world).
Proof.
  destruct (signup_namespaces sample_hashpw Host host_only_world oid_u2 "s3"
              (credentials "ann@example.org" "lily")
              (Credential oid_u1 (VStr "ann@example.org") (sample_hash "tulip" "s1")))
    as [Hconflict Hother].
  - reflexivity.
  - reflexivity.
  - split; [exact Hconflict|].
    apply (Hother "lily" (sample_hash "lily" "s3")); reflexivity.
Defined.

(** C8, as stated, fails: with the password left out, both logins below
    fail, but the one for a known email raises and the one for an unknown
    email answers Unauthorized, so the response tells whether the email
    exists. *)
Lemma login_without_password_reveals_email :
  let known := <["email" := VStr "ann@example.org"]> (∅ : gmap string value) in
  let unknown := <["email" := VStr "bob@example.org"]> (∅ : gmap string value) in
  login sample_checkpw Host known host_only_world
  = (Raise AttributeError, host_only_world)
  ∧ login sample_checkpw Host unknown host_only_world
    = (Ok invalid_credentials, host_only_world)
  ∧ fst (login sample_checkpw Host known host_only_world)
    ≠ fst (login sample_checkpw Host unknown host_only_world).
Proof. repeat split; try discriminate; vm_compute; reflexivity. Qed.

(** The same happens with a password that bcrypt refuses to check (here,
    with the stand-in for bcrypt, one of 73 bytes). *)
Example login_with_refused_password :
  let long := String.concat "" (repeat "a" 73) in
  login sample_checkpw Host (credentials "ann@example.org" long) host_only_world
  = (Raise ValueError, host_only_world)
  ∧ login sample_checkpw Host (credentials "bob@example.org" long) host_only_world
    = (Ok invalid_credentials, host_only_world).
Proof. split; vm_compute; reflexivity. Qed.

Lemma login_failure_uniform_witness :
  login sample_checkpw Host (credentials "ann@example.org" "daisy") host_only_world
  = (Ok invalid_credentials, host_only_world)
  ∧ fst (login sample_checkpw Host (credentials "bob@example.org" "daisy")
           host_only_world)
    = fst (login sample_checkpw Host (credentials "ann@example.org" "daisy")
             host_only_world).
Proof.
  apply (login_failure_uniform sample_checkpw Host host_only_world host_only_world
           (credentials "ann@example.org" "daisy")
           (credentials "bob@example.org" "daisy")).
  - split; [reflexivity|]. exists "daisy". split; reflexivity.
  - split; [reflexivity|exact I].
Defined.

(** * Further properties of the code *)

(** ** Listing: what a page holds *)

Lemma property_view_state d w : snd (property_view d w) = w.
Proof.
  unfold property_view. run.
  repeat (match goal with
          | |- context [getitem d ?k] => destruct (getitem d k); [|reflexivity]
          end).
  reflexivity.
Qed.

Lemma mapM_property_view l : ∀ w res w',
  mapM property_view l w = (Ok res, w') →
  w' = w ∧ length res = length l
  ∧ ∀ item, item ∈ res → ∃ d, d ∈ l ∧ property_view d w = (Ok item, w).
Proof.
  induction l as [|d l IH]; intros w res w' Hm.
  - cbn in Hm. injection Hm as <- <-. repeat split. intros item Hi. by inversion Hi.
  - cbn [mapM] in Hm. unfold bind at 1 in Hm.
    assert (Hs := property_view_state d w).
    destruct (property_view d w) as [[v|e] w1] eqn:Hv; [|discriminate].
    cbn in Hs. subst w1.
    unfold bind at 1 in Hm.
    destruct (mapM property_view l w) as [[vs|e] w2] eqn:Hl; [|discriminate].
    destruct (IH w vs w2 Hl) as (-> & Hlen & Hitems).
    cbn in Hm. injection Hm as <- <-.
    split; [done|]. split; [cbn; by rewrite Hlen|].
    intros item Hi. apply elem_of_cons in Hi as [->|Hi].
    + exists d. split; [left|done].
    + destruct (Hitems item Hi) as (d' & Hd' & Hv'). exists d'. split; [by right|done].
Qed.

Lemma length_limit n (c : list document) :
  0 < n → Z.of_nat (length (limit n c)) = Z.min n (Z.of_nat (length c)).
Proof.
  intros Hn. unfold limit. destruct (Z.eqb_spec n 0); [lia|].
  rewrite length_take. lia.
Qed.

Lemma listing_page_eq regex_search sort_documents args plan w :
  listing_page regex_search sort_documents args plan w =
    limit (default 9 (a_per_page args))
      (drop (Z.to_nat (skip plan)) (listing_sequence regex_search sort_documents args w)).
Proof. reflexivity. Qed.

Lemma skip_below_total total requested per_page plan :
  0 < per_page → 0 < total →
  paginate total requested per_page = Ok plan →
  0 ≤ skip plan < total.
Proof.
  intros Hp Ht. rewrite paginate_ok by lia. intros [= <-]. cbn.
  assert (H1 := Z.mul_div_le (total - 1) per_page Hp).
  assert (H2 : 0 ≤ (total - 1) / per_page) by (apply Z.div_pos; lia).
  split; [lia|].
  apply Z.max_lub_lt; [lia|].
  assert ((Z.max 1 (Z.min requested ((total - 1) / per_page + 1)) - 1) * per_page
          ≤ (total - 1) / per_page * per_page); [|lia].
  apply Z.mul_le_mono_nonneg_r; lia.
Qed.

Section listing_pages.
Variable regex_search : string → string → bool.
Variable sort_documents : string → Z → list document → list document.
Variable regex_valid : string → bool.
Variable sort_valid : string → Z → bool.
Hypothesis sort_documents_perm :
  ∀ key direction c, sort_documents key direction c ≡ₚ c.

Lemma listing_sequence_perm args w :
  listing_sequence regex_search sort_documents args w
  ≡ₚ List.filter (matches regex_search (build_filter_query args)) (properties w).
Proof.
  unfold listing_sequence. destruct (String.eqb _ _); [done|apply sort_documents_perm].
Qed.

Lemma length_listing_sequence args w :
  Z.of_nat (length (listing_sequence regex_search sort_documents args w))
  = total_count regex_search args w.
Proof. by rewrite (Permutation_length (listing_sequence_perm args w)). Qed.

Lemma listing_sequence_elem args w d :
  d ∈ listing_sequence regex_search sort_documents args w →
  d ∈ properties w ∧ matches regex_search (build_filter_query args) d = true.
Proof.
  rewrite (listing_sequence_perm args w).
  rewrite list_elem_of_In, filter_In, <- list_elem_of_In. done.
Qed.

Lemma listing_page_elem args plan w d :
  d ∈ listing_page regex_search sort_documents args plan w →
  d ∈ listing_sequence regex_search sort_documents args w.
Proof.
  rewrite listing_page_eq. unfold limit. intros Hd.
  assert (Hdrop : d ∈ drop (Z.to_nat (skip plan))
                         (listing_sequence regex_search sort_documents args w)).
  { destruct (_ =? 0); [done|]. eapply subseteq_take, Hd. }
  eapply subseteq_drop, Hdrop.
Qed.

(** X1. With [per_page > 0], a listing that returns hands back at most
    [per_page] items, at least one whenever some property matches the
    filters (an out-of-range page number never gives an empty page), with
    status 200 and the store untouched. *)
Theorem listing_page_size (args : list_args) (w w' : world) (resp : response) :
  0 < default 9 (a_per_page args) →
  get_all_properties regex_search sort_documents regex_valid sort_valid args w = (Ok resp, w') →
  ∃ res, resp = Response (JArr res) 200
    ∧ w' = w
    ∧ Z.of_nat (length res) ≤ default 9 (a_per_page args)
    ∧ (0 < total_count regex_search args w → res ≠ []).
Proof.
  intros Hp. rewrite get_all_properties_plan.
  destruct (query_accepted _ _); [|discriminate].
  destruct (listing_plan regex_search args w) as [plan|e] eqn:Hplan; [|discriminate].
  destruct (cursor_refusal _ _ _ _); [discriminate|].
  unfold bind at 1.
  destruct (mapM property_view _ w) as [[res|e] w1] eqn:Hm; [|discriminate].
  destruct (mapM_property_view _ _ _ _ Hm) as (-> & Hlen & _).
  cbn. intros [= <- <-]. exists res. split; [done|]. split; [done|].
  rewrite Hlen, listing_page_eq, length_limit, length_drop by done.
  split; [lia|].
  intros Ht Hres. assert (Hl : length res = 0%nat) by (by subst res).
  rewrite Hlen, listing_page_eq in Hl.
  assert (Hz := length_limit (default 9 (a_per_page args))
                  (drop (Z.to_nat (skip plan))
                     (listing_sequence regex_search sort_documents args w)) Hp).
  rewrite Hl, length_drop in Hz.
  assert (Hs := skip_below_total _ _ _ _ Hp Ht Hplan).
  assert (Hn := length_listing_sequence args w). lia.
Qed.

(** X2. Every item that a listing returns is the view of a property that
    is in the store and matches the filters of the request. *)
Theorem listing_items_match (args : list_args) (w w' : world) (res : list json_object)
    (c : nat) (item : json_object) :
  get_all_properties regex_search sort_documents regex_valid sort_valid args w = (Ok (Response (JArr res) c), w') →
  item ∈ res →
  ∃ d, d ∈ properties w
    ∧ matches regex_search (build_filter_query args) d = true
    ∧ property_view d w = (Ok item, w).
Proof.
  rewrite get_all_properties_plan.
  destruct (query_accepted _ _); [|discriminate].
  destruct (listing_plan regex_search args w) as [plan|e]; [|discriminate].
  destruct (cursor_refusal _ _ _ _); [discriminate|].
  unfold bind at 1.
  destruct (mapM property_view _ w) as [[res'|e] w1] eqn:Hm; [|discriminate].
  destruct (mapM_property_view _ _ _ _ Hm) as (-> & _ & Hitems).
  cbn. intros [= <- <-] Hi.
  destruct (Hitems item Hi) as (d & Hd & Hv).
  exists d. apply listing_page_elem, listing_sequence_elem in Hd as [? ?]. done.
Qed.
End listing_pages.

(** ** Listing: page numbers *)

Lemma listing_plan_with_page regex_search args w p :
  listing_plan regex_search (with_page p args) w
  = paginate (total_count regex_search args w) p (default 9 (a_per_page args)).
Proof. reflexivity. Qed.

Lemma listing_page_with_page regex_search sort_documents args plan w p :
  listing_page regex_search sort_documents (with_page p args) plan w
  = listing_page regex_search sort_documents args plan w.
Proof. reflexivity. Qed.

(** The response of a listing depends on the page plan through its skip
    offset only. *)
Lemma cursor_refusal_by_skip regex_valid sort_valid args p p' plan plan' :
  skip plan = skip plan' →
  cursor_refusal regex_valid sort_valid (with_page p args) plan
  = cursor_refusal regex_valid sort_valid (with_page p' args) plan'.
Proof. intros Hs. unfold cursor_refusal. cbn. by rewrite Hs. Qed.

Lemma get_all_properties_by_skip regex_search sort_documents regex_valid sort_valid
    args w p p' plan plan' :
  listing_plan regex_search (with_page p args) w = Ok plan →
  listing_plan regex_search (with_page p' args) w = Ok plan' →
  skip plan = skip plan' →
  get_all_properties regex_search sort_documents regex_valid sort_valid (with_page p args) w
  = get_all_properties regex_search sort_documents regex_valid sort_valid (with_page p' args) w.
Proof.
  intros Hp Hp' Hs. rewrite !get_all_properties_plan, Hp, Hp'.
  rewrite (cursor_refusal_by_skip _ _ args p p' plan plan' Hs).
  rewrite !listing_page_with_page, !listing_page_eq, Hs. reflexivity.
Qed.

(** X3. With [per_page > 0], a request for any page number is answered
    exactly as the request for that number clamped into
    [1 .. ceil (total_count / per_page)]: a page below 1 is page 1, a page
    past the end is the last page. *)
Theorem listing_page_clamped regex_search sort_documents regex_valid sort_valid
    (args : list_args) (w : world) (p : Z) :
  0 < default 9 (a_per_page args) →
  get_all_properties regex_search sort_documents regex_valid sort_valid (with_page p args) w
  = get_all_properties regex_search sort_documents regex_valid sort_valid
      (with_page (Z.max 1 (Z.min p (ceiling_of_ratio (total_count regex_search args w)
                                      (default 9 (a_per_page args))))) args) w.
Proof.
  intros Hn. rewrite <- total_pages_is_ceiling by done.
  eapply get_all_properties_by_skip.
  - rewrite listing_plan_with_page. apply paginate_ok. lia.
  - rewrite listing_plan_with_page. apply paginate_ok. lia.
  - cbn. f_equal. f_equal. lia.
Qed.

Example listing_page_clamped_sample :
  get_all_properties match_all natural_order sample_regex_valid sample_sort_valid (page_request 40 2) sample_world
  = get_all_properties match_all natural_order sample_regex_valid sample_sort_valid (page_request 2 2) sample_world
  ∧ get_all_properties match_all natural_order sample_regex_valid sample_sort_valid (page_request (-3) 2) sample_world
    = get_all_properties match_all natural_order sample_regex_valid sample_sort_valid (page_request 1 2) sample_world.
Proof. split; vm_compute; reflexivity. Qed.

Lemma listing_page_clamped_witness :
  get_all_properties match_all natural_order sample_regex_valid sample_sort_valid (with_page 40 (page_request 1 2)) sample_world
  = get_all_properties match_all natural_order sample_regex_valid sample_sort_valid
      (with_page (Z.max 1 (Z.min 40 (ceiling_of_ratio
                                       (total_count match_all (page_request 1 2) sample_world)
                                       2))) (page_request 1 2)) sample_world.
Proof.
  apply (listing_page_clamped match_all natural_order sample_regex_valid
           sample_sort_valid (page_request 1 2) sample_world 40).
  reflexivity.
Defined.

(** X4. A listing with [per_page = 0] raises: [ZeroDivisionError] when
    the store takes the filter and counts, and the store's own
    [OperationFailure], from the count that comes first, when it does
    not.  A listing with [per_page < 0] skips nothing whatever page is
    asked for: all page numbers get the same response. *)
Theorem listing_non_positive_per_page regex_search sort_documents regex_valid
    sort_valid (args : list_args) (w : world) :
  (default 9 (a_per_page args) = 0 →
   get_all_properties regex_search sort_documents regex_valid sort_valid args w
   = (Raise (if query_accepted regex_valid (build_filter_query args)
             then ZeroDivisionError else OperationFailure), w))
  ∧ (default 9 (a_per_page args) < 0 →
     ∀ p p',
       get_all_properties regex_search sort_documents regex_valid sort_valid
         (with_page p args) w
       = get_all_properties regex_search sort_documents regex_valid sort_valid
           (with_page p' args) w).
Proof.
  split.
  - intros H0. rewrite get_all_properties_plan. unfold listing_plan, paginate.
    rewrite H0. by destruct (query_accepted _ _).
  - intros Hneg p p'.
    eapply get_all_properties_by_skip.
    + rewrite listing_plan_with_page. apply paginate_ok. lia.
    + rewrite listing_plan_with_page. apply paginate_ok. lia.
    + cbn. nia.
Qed.

Example listing_non_positive_per_page_sample :
  fst (get_all_properties match_all natural_order sample_regex_valid sample_sort_valid (page_request 1 0) sample_world)
  = Raise ZeroDivisionError
  ∧ get_all_properties match_all natural_order sample_regex_valid sample_sort_valid (page_request 5 (-2)) sample_world
    = get_all_properties match_all natural_order sample_regex_valid sample_sort_valid (page_request 1 (-2)) sample_world
  ∧ ∃ a b, fst (get_all_properties match_all natural_order sample_regex_valid sample_sort_valid (page_request 5 (-2))
                  sample_world)
           = Ok (Response (JArr [a; b]) 200).
Proof.
  split; [vm_compute; reflexivity|]. split; [vm_compute; reflexivity|].
  do 2 eexists. vm_compute. reflexivity.
Qed.

Example listing_refused_pattern_without_per_page :
  get_all_properties match_all natural_order sample_regex_valid sample_sort_valid
    {| a_sort_by := None; a_sort_order := None; a_page := None;
       a_per_page := Some 0; a_title := Some "("; a_property_type := None;
       a_location := None |} sample_world
  = (Raise OperationFailure, sample_world).
Proof. vm_compute. reflexivity. Qed.

Section listing_tiles.
Variable regex_search : string → string → bool.
Variable sort_documents : string → Z → list document → list document.
Hypothesis sort_documents_perm :
  ∀ key direction c, sort_documents key direction c ≡ₚ c.

Lemma page_of_in_range args w (k : nat) :
  0 < default 9 (a_per_page args) →
  Z.of_nat k < ceiling_of_ratio (total_count regex_search args w)
                 (default 9 (a_per_page args)) →
  page_of regex_search sort_documents args w (1 + Z.of_nat k)
  = take (Z.to_nat (default 9 (a_per_page args)))
      (drop (k * Z.to_nat (default 9 (a_per_page args)))
         (listing_sequence regex_search sort_documents args w)).
Proof.
  intros Hn Hk. rewrite <- total_pages_is_ceiling in Hk by done.
  unfold page_of. rewrite listing_plan_with_page, paginate_ok by lia.
  rewrite listing_page_with_page, listing_page_eq. cbn [skip].
  unfold limit. destruct (Z.eqb_spec (default 9 (a_per_page args)) 0); [lia|].
  rewrite Zabs2Nat.abs_nat_nonneg by lia. f_equal. f_equal.
  set (pp := default 9 (a_per_page args)) in *.
  set (t := total_count regex_search args w) in *.
  replace (Z.max 1 (Z.min (1 + Z.of_nat k) ((t - 1) / pp + 1))) with (1 + Z.of_nat k)
    by lia.
  replace (1 + Z.of_nat k - 1) with (Z.of_nat k) by lia.
  rewrite Z.max_r by nia.
  rewrite Z2Nat.inj_mul, Nat2Z.id by lia. reflexivity.
Qed.

Lemma pages_concat args w (k : nat) :
  0 < default 9 (a_per_page args) →
  Z.of_nat k ≤ ceiling_of_ratio (total_count regex_search args w)
                 (default 9 (a_per_page args)) →
  concat (map (page_of regex_search sort_documents args w) (seqZ 1 (Z.of_nat k)))
  = take (k * Z.to_nat (default 9 (a_per_page args)))
      (listing_sequence regex_search sort_documents args w).
Proof.
  intros Hn. induction k as [|k IH]; intros Hk; [done|].
  rewrite seqZ_S, map_app, concat_app, IH by lia.
  cbn [map concat]. rewrite app_nil_r, page_of_in_range by (done || lia).
  rewrite take_take_drop. f_equal. lia.
Qed.

(** X5. With [per_page > 0], the pages [1 .. ceil (total_count / per_page)]
    of a listing request, one after the other, are exactly the matching
    properties in cursor order: no property is left out and none comes
    twice. *)
Theorem listing_pages_tile (args : list_args) (w : world) :
  0 < default 9 (a_per_page args) →
  concat (map (page_of regex_search sort_documents args w)
            (seqZ 1 (ceiling_of_ratio (total_count regex_search args w)
                       (default 9 (a_per_page args)))))
  = listing_sequence regex_search sort_documents args w.
Proof.
  intros Hn.
  assert (Ht : 0 ≤ total_count regex_search args w) by apply count_documents_nonneg.
  assert (Hc := ceiling_of_ratio_nonneg _ _ Ht Hn).
  assert (Hlen := length_listing_sequence regex_search sort_documents
                    sort_documents_perm args w).
  assert (Hgt := Z.mul_succ_div_gt (total_count regex_search args w - 1) _ Hn).
  rewrite <- (total_pages_is_ceiling (total_count regex_search args w)) in * by done.
  rewrite <- (Z2Nat.id (_ / _ + 1)) by done.
  rewrite pages_concat
    by (done || (rewrite <- total_pages_is_ceiling by done; lia)).
  apply take_ge.
  apply Nat2Z.inj_le. rewrite Nat2Z.inj_mul, !Z2Nat.id by lia. lia.
Qed.
End listing_tiles.

Lemma listing_pages_tile_witness :
  concat (map (page_of match_all natural_order (page_request 1 2) sample_world)
            (seqZ 1 (ceiling_of_ratio
                       (total_count match_all (page_request 1 2) sample_world) 2)))
  = listing_sequence match_all natural_order (page_request 1 2) sample_world.
Proof.
  apply (listing_pages_tile match_all natural_order).
  - intros key direction c. reflexivity.
  - reflexivity.
Defined.

Lemma listing_page_size_witness :
  ∃ res,
    Response (JArr [hill_top_view]) 200 = Response (JArr res) 200
    ∧ sample_world = sample_world
    ∧ Z.of_nat (length res) ≤ default 9 (a_per_page (page_request 2 2))
    ∧ (0 < total_count match_all (page_request 2 2) sample_world → res ≠ []).
Proof.
  apply (listing_page_size match_all natural_order sample_regex_valid
           sample_sort_valid (λ key direction c, reflexivity c) (page_request 2 2)
           sample_world).
  - reflexivity.
  - vm_compute. reflexivity.
Defined.

Lemma listing_items_match_witness :
  ∃ d, d ∈ properties sample_world
    ∧ matches match_all (build_filter_query (page_request 2 2)) d = true
    ∧ property_view d sample_world = (Ok hill_top_view, sample_world).
Proof.
  apply (listing_items_match match_all natural_order sample_regex_valid
           sample_sort_valid (λ key direction c, reflexivity c)
           (page_request 2 2) sample_world
           sample_world [hill_top_view] 200%nat).
  - vm_compute. reflexivity.
  - apply list_elem_of_here.
Defined.

(** ** The catalog: create, read, update, delete *)

Lemma first_missing_None data :
  first_missing data = None →
  ∀ k, k ∈ property_fields → data_item data k = Ok (data_get data k).
Proof.
  intros Hf k Hk. unfold data_item, data_get.
  destruct (data !! k) as [v|] eqn:Hv; [done|].
  apply list_elem_of_In in Hk.
  pose proof (find_none _ _ Hf k Hk) as Hn. cbn in Hn.
  rewrite bool_decide_true in Hn by done. discriminate.
Qed.

Lemma create_property_run new_id data w :
  create_property new_id data w =
    match first_missing data with
    | Some k => (Raise (KeyError k), w)
    | None =>
        if negb (encodable (property_of new_id data)) then (Raise OverflowError, w)
        else if existsb (has_id new_id) (properties w)
        then (Raise DuplicateKeyError, w)
        else (Ok property_created,
              with_properties (properties w ++ [property_of new_id data]) w)
    end.
Proof.
  destruct w as [h g p b s].
  unfold create_property, first_missing, property_of, data_item, data_get. run.
  cbn [List.find property_fields].
  repeat (match goal with
          | |- context [data !! ?k] =>
              destruct (data !! k) eqn:?; cbn [bool_decide decide_rel default];
              [rewrite bool_decide_false by done|by rewrite bool_decide_true]
          end).
  unfold insert_one. cbn [properties].
  change (oid_of (property_document new_id ?a ?b ?c ?d ?e ?f ?g)) with new_id.
  destruct (encodable (property_document _ _ _ _ _ _ _ _)); [|reflexivity].
  cbn. destruct (existsb (has_id new_id) p); reflexivity.
Qed.

(** X6. When the body of a property creation lacks one of the seven
    fields, the operation raises [KeyError] for the first missing one, in
    the order title, location, property_type, description,
    price_per_night, status, img, and stores nothing. *)
Theorem create_property_missing_field (new_id : ObjectId)
    (data : gmap string value) (w : world) (k : string) :
  first_missing data = Some k →
  create_property new_id data w = (Raise (KeyError k), w).
Proof. intros Hk. by rewrite create_property_run, Hk. Qed.

Lemma create_property_missing_field_witness :
  create_property oid_b1 (delete "status" (delete "location" (property_request "Nest" 10)))
    sample_world
  = (Raise (KeyError "location"), sample_world).
Proof.
  apply (create_property_missing_field oid_b1
           (delete "status" (delete "location" (property_request "Nest" 10)))
           sample_world "location").
  vm_compute. reflexivity.
Defined.

Lemma get_property_state property_id w : snd (get_property property_id w) = w.
Proof.
  destruct w as [h g p b s]. unfold get_property. run.
  destruct (ObjectId_of_str property_id); [|reflexivity].
  destruct (find_one _ p) as [d|]; [|reflexivity].
  repeat (match goal with
          | |- context [getitem d ?k] => destruct (getitem d k); [|reflexivity]
          end).
  reflexivity.
Qed.

Lemma get_property_absent property_id oid w :
  ObjectId_of_str property_id = Ok oid →
  find_one (has_id oid) (properties w) = None →
  get_property property_id w = (Ok property_not_found_reply, w).
Proof.
  intros Hoid Hf. destruct w as [h g p b s]. unfold get_property. run.
  cbn [properties] in Hf. by rewrite Hoid, Hf.
Qed.

Lemma get_property_found property_id oid w d t l pt de pr st im :
  ObjectId_of_str property_id = Ok oid →
  find_one (has_id oid) (properties w) = Some d →
  doc_fields d !! "title" = Some t →
  doc_fields d !! "location" = Some l →
  doc_fields d !! "property_type" = Some pt →
  doc_fields d !! "description" = Some de →
  doc_fields d !! "price_per_night" = Some pr →
  doc_fields d !! "status" = Some st →
  doc_fields d !! "img" = Some im →
  get_property property_id w = (Ok (property_reply (doc_id d) t l pt de pr st im), w).
Proof.
  intros Hoid Hf Ht Hl Hpt Hde Hpr Hst Him.
  destruct w as [h g p b s]. unfold get_property, getitem. run.
  cbn [properties] in Hf. by rewrite Hoid, Hf, Ht, Hl, Hpt, Hde, Hpr, Hst, Him.
Qed.

Lemma find_one_app_new `{HasId A} (i : ObjectId) (c : list A) (a : A) :
  existsb (has_id i) c = false → oid_of a = i →
  find_one (has_id i) (c ++ [a]) = Some a.
Proof.
  intros Hc Ha. rewrite find_one_app.
  apply find_one_existsb in Hc. rewrite Hc.
  unfold find_one; cbn. unfold has_id. by rewrite Ha, N.eqb_refl.
Qed.

(** X7. A property creation whose body has the seven fields, with
    values that BSON encodes, stores one more property, and reading that
    property back by its id returns the fields of the body: each rendered
    by [str], the status by its truth value.  ([new_id] is the id from
    [ObjectId()]: twelve bytes, not yet in the catalog.) *)
Theorem create_then_get_property (new_id : ObjectId) (data : gmap string value)
    (w : world) :
  first_missing data = None →
  encodable (property_of new_id data) = true →
  valid_oid new_id →
  existsb (has_id new_id) (properties w) = false →
  let created := create_property new_id data w in
  created = (Ok property_created,
             with_properties (properties w ++ [property_of new_id data]) w)
  ∧ get_property (str_oid new_id) (snd created)
    = (Ok (property_reply new_id
             (data_get data "title") (data_get data "location")
             (data_get data "property_type") (data_get data "description")
             (data_get data "price_per_night") (data_get data "status")
             (data_get data "img")),
       snd created).
Proof.
  intros Hm He Hv Hf created.
  assert (Hc : created = (Ok property_created,
            with_properties (properties w ++ [property_of new_id data]) w)).
  { subst created. by rewrite create_property_run, Hm, He, Hf. }
  split; [exact Hc|]. rewrite Hc. cbn [snd].
  apply (get_property_found _ new_id _ (property_of new_id data)).
  - by apply ObjectId_of_str_str.
  - destruct w; cbn. by apply find_one_app_new.
  - reflexivity.
  - reflexivity.
  - reflexivity.
  - reflexivity.
  - reflexivity.
  - reflexivity.
  - reflexivity.
Qed.

Lemma create_then_get_property_witness :
  let created := create_property oid_b1 (property_request "Nest" 10) sample_world in
  created = (Ok property_created,
             with_properties (properties sample_world
                              ++ [property_of oid_b1 (property_request "Nest" 10)])
               sample_world)
  ∧ get_property (str_oid oid_b1) (snd created)
    = (Ok (property_reply oid_b1 (VStr "Nest") (VStr "Goa") (VStr "villa")
             (VStr "sea view") (VInt 10) (VBool true) (VStr "a.png")),
       snd created).
Proof.
  apply (create_then_get_property oid_b1 (property_request "Nest" 10) sample_world).
  - reflexivity.
  - reflexivity.
  - reflexivity.
  - reflexivity.
Defined.

(** A nightly price beyond 64 bits: the store takes no such property. *)
Example create_property_with_oversized_price :
  create_property oid_b1 (property_request "Nest" (2 ^ 63)) sample_world
  = (Raise OverflowError, sample_world).
Proof. vm_compute. reflexivity. Qed.

Section more_collection_facts.
Context {A : Type} `{HasId A}.
Implicit Types (q : A → bool) (c : list A) (i j : ObjectId).

Lemma find_one_elem q c a : find_one q c = Some a → a ∈ c ∧ q a = true.
Proof.
  unfold find_one. intros Hf. apply find_some in Hf as [Hin Hq].
  by rewrite list_elem_of_In.
Qed.

Lemma find_one_not_in i c : i ∉ map oid_of c → find_one (has_id i) c = None.
Proof.
  intros Hi. destruct (find_one (has_id i) c) as [a|] eqn:Hf; [|done].
  apply find_one_elem in Hf as [Ha Hq]. apply has_id_true in Hq.
  destruct Hi. rewrite <- Hq. by apply list_elem_of_fmap_2.
Qed.

Lemma find_one_delete_first_same i c :
  NoDup (map oid_of c) → find_one (has_id i) (delete_first (has_id i) c) = None.
Proof.
  induction c as [|a c IH]; [done|].
  cbn [map]. intros [Ha Hc]%NoDup_cons. cbn [delete_first].
  destruct (has_id i a) eqn:Hi.
  - apply has_id_true in Hi. subst i. by apply find_one_not_in.
  - unfold find_one; cbn [List.find]. rewrite Hi. by apply IH.
Qed.

Lemma find_one_delete_first_other i j c :
  i ≠ j → find_one (has_id j) (delete_first (has_id i) c) = find_one (has_id j) c.
Proof.
  intros Hne. induction c as [|a c IH]; [done|]. cbn [delete_first].
  destruct (has_id i a) eqn:Hi.
  - apply has_id_true in Hi. unfold find_one; cbn [List.find].
    destruct (has_id j a) eqn:Hj; [|done].
    apply has_id_true in Hj. congruence.
  - unfold find_one in *; cbn [List.find]. by rewrite IH.
Qed.

Lemma elem_of_delete_first q c a : a ∈ delete_first q c → a ∈ c.
Proof.
  induction c as [|b c IH]; [done|]. cbn [delete_first].
  destruct (q b).
  - by right.
  - intros [->|Ha]%elem_of_cons; [left|right; by apply IH].
Qed.

Lemma elem_of_update_first q (f : A → A) c a :
  a ∈ update_first q f c → a ∈ c ∨ ∃ b, b ∈ c ∧ a = f b.
Proof.
  induction c as [|b c IH]; [by left|]. cbn [update_first].
  destruct (q b).
  - intros [->|Ha]%elem_of_cons.
    + right. exists b. split; [left|done].
    + left. by right.
  - intros [->|Ha]%elem_of_cons; [left; left|].
    destruct (IH Ha) as [?|(b' & ? & ?)]; [left; by right|].
    right. exists b'. split; [by right|done].
Qed.

Lemma length_update_first q (f : A → A) c : length (update_first q f c) = length c.
Proof.
  induction c as [|b c IH]; [done|]. cbn [update_first].
  destruct (q b); cbn; by rewrite ?IH.
Qed.
End more_collection_facts.

Lemma delete_property_run property_id w :
  delete_property property_id w =
    match ObjectId_of_str property_id with
    | Raise e => (Raise e, w)
    | Ok oid =>
        match find_one (has_id oid) (properties w) with
        | Some _ => (Ok property_deleted,
                     with_properties (delete_first (has_id oid) (properties w)) w)
        | None => (Ok property_not_found, w)
        end
    end.
Proof.
  destruct w as [h g p b s]. unfold delete_property, delete_one. run.
  destruct (ObjectId_of_str property_id) as [oid|e]; [|reflexivity].
  destruct (find_one (has_id oid) p); reflexivity.
Qed.

Lemma delete_property_book property_id w :
  book (snd (delete_property property_id w)) = book w.
Proof.
  rewrite delete_property_run.
  destruct (ObjectId_of_str property_id); [|done].
  destruct (find_one _ _); by destruct w.
Qed.

Lemma delete_property_gone property_id oid w :
  ObjectId_of_str property_id = Ok oid →
  property_ids_unique w →
  find_one (has_id oid) (properties (snd (delete_property property_id w))) = None.
Proof.
  intros Hoid Hu. rewrite delete_property_run, Hoid.
  destruct (find_one (has_id oid) (properties w)) eqn:Hf; cbn [snd]; [|done].
  destruct w; cbn. by apply find_one_delete_first_same.
Qed.

(** X8. After a property delete, whatever it answered, a read of the same
    id answers not-found; the other properties and all bookings are as
    before (nothing cascades to the ledger).  The answer of the delete is
    the success message exactly when the property was there. *)
Theorem delete_property_then_get (property_id : string) (oid : ObjectId) (w : world) :
  ObjectId_of_str property_id = Ok oid →
  property_ids_unique w →
  let deleted := delete_property property_id w in
  fst deleted = Ok (match find_one (has_id oid) (properties w) with
                    | Some _ => property_deleted
                    | None => property_not_found
                    end)
  ∧ get_property property_id (snd deleted) = (Ok property_not_found_reply, snd deleted)
  ∧ book (snd deleted) = book w
  ∧ ∀ j, j ≠ oid →
         find_one (has_id j) (properties (snd deleted)) = find_one (has_id j) (properties w).
Proof.
  intros Hoid Hu deleted. subst deleted. rewrite delete_property_run, Hoid.
  destruct (find_one (has_id oid) (properties w)) as [d|] eqn:Hf; cbn [fst snd].
  - split; [done|]. split; [|split].
    + apply (get_property_absent _ oid); [done|].
      destruct w; cbn. by apply find_one_delete_first_same.
    + by destruct w.
    + intros j Hj. destruct w; cbn. by apply find_one_delete_first_other.
  - split; [done|]. split; [|split]; [|done|done].
    by apply (get_property_absent _ oid).
Qed.

Lemma delete_property_then_get_witness :
  let deleted := delete_property (str_oid oid_p2) sample_world in
  fst deleted = Ok (match find_one (has_id oid_p2) (properties sample_world) with
                    | Some _ => property_deleted
                    | None => property_not_found
                    end)
  ∧ get_property (str_oid oid_p2) (snd deleted)
    = (Ok property_not_found_reply, snd deleted)
  ∧ book (snd deleted) = book sample_world
  ∧ ∀ j, j ≠ oid_p2 →
         find_one (has_id j) (properties (snd deleted))
         = find_one (has_id j) (properties sample_world).
Proof.
  apply (delete_property_then_get (str_oid oid_p2) oid_p2 sample_world).
  - reflexivity.
  - unfold property_ids_unique. apply (bool_decide_unpack _). vm_compute. exact I.
Defined.

(** X9. Deleting a property that a booking references leaves that booking
    in the ledger; deleting the booking afterwards succeeds and changes no
    property. *)
Theorem orphaned_booking_can_be_deleted (w : world) (property_id booking_id : string)
    (pid bid : ObjectId) (entry : Booking) :
  ObjectId_of_str property_id = Ok pid →
  ObjectId_of_str booking_id = Ok bid →
  property_ids_unique w →
  find_one (has_id bid) (book w) = Some entry →
  designates (b_property_id entry) = Some pid →
  let w1 := snd (delete_property property_id w) in
  find_one (has_id bid) (book w1) = Some entry
  ∧ delete_book_data booking_id w1
    = (Ok booking_deleted, with_book (delete_first (has_id bid) (book w)) w1).
Proof.
  intros Hpid Hbid Hu Hentry Hdes w1.
  assert (Hbook : book w1 = book w) by apply delete_property_book.
  assert (Hgone : find_one (has_id pid) (properties w1) = None)
    by (by apply delete_property_gone).
  rewrite Hbook. split; [done|].
  rewrite delete_booking_run, Hbid, Hbook, Hentry. cbn zeta.
  apply designates_Some in Hdes as [-> ->].
  rewrite set_status_absent by done.
  by destruct w1.
Qed.

Lemma orphaned_booking_can_be_deleted_witness :
  let w1 := snd (delete_property (str_oid oid_p1) booked_world) in
  find_one (has_id oid_b1) (book w1) = Some (booking_of oid_b1 (booking_request oid_p1))
  ∧ delete_book_data (str_oid oid_b1) w1
    = (Ok booking_deleted,
       with_book (delete_first (has_id oid_b1) (book booked_world)) w1).
Proof.
  apply (orphaned_booking_can_be_deleted booked_world (str_oid oid_p1) (str_oid oid_b1)
           oid_p1 oid_b1 (booking_of oid_b1 (booking_request oid_p1))).
  - reflexivity.
  - reflexivity.
  - unfold property_ids_unique. apply (bool_decide_unpack _). vm_compute. exact I.
  - reflexivity.
  - reflexivity.
Defined.

Lemma lookup_set_fields upd d k :
  doc_fields (set_fields upd d) !! k =
    match upd !! k with
    | Some v => Some v
    | None => doc_fields d !! k
    end.
Proof.
  unfold set_fields; cbn. rewrite lookup_union.
  destruct (upd !! k), (doc_fields d !! k); reflexivity.
Qed.

(** X10. An update of a stored property with a body of one or more
    plain field names (not empty, no dot, no leading dollar sign), none of
    them [_id], and values that BSON encodes overrides exactly the fields
    that the body gives and keeps the others; the property keeps its id,
    every other property is as before, and so is the ledger. *)
Theorem update_property_overrides_fields (w : world) (property_id : string)
    (oid : ObjectId) (data : gmap string value) (d : document) :
  ObjectId_of_str property_id = Ok oid →
  find_one (has_id oid) (properties w) = Some d →
  plain_body data →
  data !! "_id" = None →
  let w1 := snd (update_property property_id data w) in
  (∃ d', find_one (has_id oid) (properties w1) = Some d'
         ∧ doc_id d' = doc_id d
         ∧ ∀ k, doc_fields d' !! k = match data !! k with
                                     | Some v => Some v
                                     | None => doc_fields d !! k
                                     end)
  ∧ (∀ j, j ≠ oid →
          find_one (has_id j) (properties w1) = find_one (has_id j) (properties w))
  ∧ length (properties w1) = length (properties w)
  ∧ book w1 = book w.
Proof.
  intros Hoid Hf Hplain Hid w1. subst w1.
  rewrite (update_property_plain_run _ _ _ Hplain), Hoid, Hf, Hid.
  rewrite bool_decide_false by (intros [? ?]; discriminate). cbn [snd].
  destruct w as [h g p b s]; cbn [properties book with_properties] in *.
  split; [|split; [|split]].
  - exists (set_fields data d). split; [|split].
    + rewrite find_one_update_first by apply set_fields_id.
      by rewrite N.eqb_refl, Hf.
    + reflexivity.
    + intros k. apply lookup_set_fields.
  - intros j Hj. rewrite find_one_update_first by apply set_fields_id.
    by destruct (N.eqb_spec oid j).
  - apply length_update_first.
  - reflexivity.
Qed.

Lemma update_property_overrides_fields_witness :
  let w1 := snd (update_property (str_oid oid_p1)
                   (<["title" := VStr "Casa Verde"]> ∅) sample_world) in
  (∃ d', find_one (has_id oid_p1) (properties w1) = Some d'
         ∧ doc_id d' = doc_id (sample_property oid_p1 "Casa Azul" 50 true)
         ∧ ∀ k, doc_fields d' !! k
                = match (<["title" := VStr "Casa Verde"]> ∅ : gmap string value) !! k with
                  | Some v => Some v
                  | None => doc_fields (sample_property oid_p1 "Casa Azul" 50 true) !! k
                  end)
  ∧ (∀ j, j ≠ oid_p1 →
          find_one (has_id j) (properties w1)
          = find_one (has_id j) (properties sample_world))
  ∧ length (properties w1) = length (properties sample_world)
  ∧ book w1 = book sample_world.
Proof.
  apply (update_property_overrides_fields sample_world (str_oid oid_p1) oid_p1
           (<["title" := VStr "Casa Verde"]> ∅)
           (sample_property oid_p1 "Casa Azul" 50 true)).
  - reflexivity.
  - reflexivity.
  - apply plain_body_one_field; reflexivity.
  - reflexivity.
Defined.

(** ** Complete property documents *)

Lemma complete_set_fields upd d : complete d → complete (set_fields upd d).
Proof.
  intros Hd k Hk. rewrite lookup_set_fields.
  destruct (upd !! k); [by eexists|by apply Hd].
Qed.

Lemma complete_property_document i t l pt de pr st im :
  complete (property_document i t l pt de pr st im).
Proof.
  intros k Hk. unfold property_fields in Hk.
  repeat (apply elem_of_cons in Hk as [->|Hk]; [by eexists|]).
  by apply elem_of_nil in Hk.
Qed.

Lemma catalog_complete_update_first q upd c :
  (∀ d, d ∈ c → complete d) →
  ∀ d, d ∈ update_first q (set_fields upd) c → complete d.
Proof.
  intros Hc d Hd. apply elem_of_update_first in Hd as [Hd|(d0 & Hd0 & ->)].
  - by apply Hc.
  - by apply complete_set_fields, Hc.
Qed.

Lemma exec_store_complete op w :
  catalog_complete w → catalog_complete (exec_store op w).
Proof.
  intros Hw. unfold catalog_complete in *.
  destruct op as [new_id data|property_id data|property_id|[new_id data|booking_id]];
    cbn [exec_store]; unfold exec, run_op.
  - rewrite create_property_run.
    destruct (first_missing data); [done|].
    destruct (negb _); [done|].
    destruct (existsb _ _); [done|]. destruct w; cbn in *.
    intros x [Hd|Hd]%elem_of_app; [by apply Hw|].
    apply list_elem_of_singleton in Hd as ->. apply complete_property_document.
  - rewrite update_property_run.
    destruct (ObjectId_of_str property_id); [|done].
    destruct (negb _); [done|]. destruct (negb _); [done|].
    destruct (find_one _ _) as [found|]; [|done].
    destruct (bool_decide _); [done|]. destruct w; cbn in *.
    by apply catalog_complete_update_first.
  - rewrite delete_property_run.
    destruct (ObjectId_of_str property_id); [|done].
    destruct (find_one _ _) as [found|]; [|done]. destruct w; cbn in *.
    intros x Hx. by apply Hw, (elem_of_delete_first _ _ _ Hx).
  - rewrite post_booking_run.
    destruct (negb _); [done|].
    destruct (existsb _ _); [done|]. cbn zeta.
    destruct (truthy _); [|by destruct w].
    destruct (ObjectId_of _); [|by destruct w]. destruct w; cbn in *.
    by apply catalog_complete_update_first.
  - rewrite delete_booking_run.
    destruct (ObjectId_of_str booking_id); [|done].
    destruct (find_one _ _) as [found|]; [|done]. cbn zeta.
    destruct (truthy _); [|by destruct w].
    destruct (ObjectId_of _); [|by destruct w]. destruct w; cbn in *.
    by apply catalog_complete_update_first.
Qed.

(** X11. Every property that the routes store or rewrite has the seven
    fields that the views read: if each property of the catalog has them,
    so has each property after any sequence of property creations,
    updates and deletions and booking creations and deletions, whether
    these return or raise. *)
Theorem catalog_complete_preserved (w w' : world) :
  catalog_complete w → store_run w w' → catalog_complete w'.
Proof.
  intros Hw Hrun. induction Hrun as [w|w w' op Hrun IH]; [done|].
  by apply exec_store_complete, IH.
Qed.

Lemma empty_world_complete : catalog_complete empty_world.
Proof. intros d Hd. by apply elem_of_nil in Hd. Qed.

Lemma catalog_complete_preserved_witness :
  catalog_complete
    (exec_store (UpdateProperty (str_oid oid_p1) (<["status" := VNone]> ∅))
       (exec_store (CreateProperty oid_p1 (property_request "Nest" 10)) empty_world)).
Proof.
  apply (catalog_complete_preserved empty_world).
  - apply empty_world_complete.
  - apply store_step, store_step, store_here.
Defined.

Lemma property_view_complete d w :
  complete d → ∃ v, property_view d w = (Ok v, w).
Proof.
  intros Hd. unfold property_view, getitem. run.
  repeat (match goal with
          | |- context [doc_fields d !! ?k] =>
              let H := fresh in
              destruct (Hd k) as [? H];
              [unfold property_fields; set_solver|rewrite H]
          end).
  by eexists.
Qed.

Lemma mapM_property_view_complete l w :
  (∀ d, d ∈ l → complete d) → ∃ res, mapM property_view l w = (Ok res, w).
Proof.
  induction l as [|d l IH]; intros Hl; [by eexists|].
  destruct (property_view_complete d w) as [v Hv]; [apply Hl; left|].
  destruct IH as [vs Hvs]; [intros d' Hd'; apply Hl; by right|].
  exists (v :: vs). cbn [mapM]. unfold bind at 1. rewrite Hv.
  unfold bind at 1. by rewrite Hvs.
Qed.

Lemma skip_fits total requested per_page plan :
  per_page ≠ 0 → 0 ≤ total < 2 ^ 63 →
  paginate total requested per_page = Ok plan →
  int64 (skip plan) = true.
Proof.
  intros Hp Ht Hplan.
  assert (Hs : 0 ≤ skip plan < 2 ^ 63); [|unfold int64; lia].
  destruct (Z.lt_trichotomy per_page 0) as [Hneg|[?|Hpos]]; [|done|].
  - rewrite paginate_ok in Hplan by done. injection Hplan as <-. cbn [skip]. nia.
  - destruct (Z.eq_dec total 0) as [->|Hne].
    + rewrite paginate_ok in Hplan by done. injection Hplan as <-. cbn [skip].
      assert (Hd : (0 - 1) / per_page = -1)
        by (symmetry; apply (Z.div_unique_pos _ _ _ (per_page - 1)); lia).
      rewrite Hd. lia.
    + assert (Hb := skip_below_total total requested per_page plan Hpos
                  ltac:(lia) Hplan).
      lia.
Qed.

Section complete_views.
Variable regex_search : string → string → bool.
Variable sort_documents : string → Z → list document → list document.
Variable regex_valid : string → bool.
Variable sort_valid : string → Z → bool.
Hypothesis sort_documents_perm :
  ∀ key direction c, sort_documents key direction c ≡ₚ c.

(** X12. On a catalog whose properties all have the seven fields, no view
    raises [KeyError]: a listing with [per_page] other than 0 whose
    queries the store accepts (the title pattern compiles, the sort
    specification is one the server takes, the numbers fit eight bytes)
    returns 200 with a list, and a read by an id of 24 hexadecimal digits
    returns 200 or not-found; neither changes the store. *)
Theorem views_of_complete_catalog (w : world) :
  catalog_complete w →
  (∀ args, default 9 (a_per_page args) ≠ 0 →
     listing_accepted regex_valid sort_valid args →
     total_count regex_search args w < 2 ^ 63 →
     ∃ res, get_all_properties regex_search sort_documents regex_valid sort_valid args w
            = (Ok (Response (JArr res) 200), w))
  ∧ (∀ property_id oid, ObjectId_of_str property_id = Ok oid →
       ∃ r, get_property property_id w = (Ok r, w)
            ∧ (reply_code r = 200%nat ∨ r = property_not_found_reply)).
Proof.
  intros Hw. split.
  - intros args Hn Hacc Hcount. rewrite get_all_properties_plan.
    rewrite (proj1 Hacc).
    destruct (listing_plan regex_search args w) as [plan|e] eqn:Hplan;
      [|unfold listing_plan in Hplan; by rewrite paginate_ok in Hplan].
    rewrite cursor_refusal_None; [|done|].
    2:{ eapply skip_fits; [exact Hn| |exact Hplan].
        split; [apply count_documents_nonneg|exact Hcount]. }
    match goal with |- context [mapM property_view ?l] =>
      destruct (mapM_property_view_complete l w) as [res Hres] end.
    { intros d Hd. apply Hw.
      apply listing_page_elem, listing_sequence_elem in Hd as [? _]; done. }
    exists res. unfold bind. by rewrite Hres.
  - intros property_id oid Hoid.
    destruct (find_one (has_id oid) (properties w)) as [d|] eqn:Hf.
    + assert (Hd : complete d) by (apply Hw; by apply find_one_elem in Hf as [? _]).
      destruct (Hd "title") as [t Ht]; [unfold property_fields; set_solver|].
      destruct (Hd "location") as [l Hl]; [unfold property_fields; set_solver|].
      destruct (Hd "property_type") as [pt Hpt]; [unfold property_fields; set_solver|].
      destruct (Hd "description") as [de Hde]; [unfold property_fields; set_solver|].
      destruct (Hd "price_per_night") as [pr Hpr]; [unfold property_fields; set_solver|].
      destruct (Hd "status") as [st Hst]; [unfold property_fields; set_solver|].
      destruct (Hd "img") as [im Him]; [unfold property_fields; set_solver|].
      eexists. split; [by eapply get_property_found|]. by left.
    + eexists. split; [by eapply get_property_absent|]. by right.
Qed.
End complete_views.

Lemma sample_world_complete : catalog_complete sample_world.
Proof.
  intros d Hd. unfold sample_world in Hd; cbn in Hd.
  repeat (apply elem_of_cons in Hd as [->|Hd]; [apply complete_property_document|]).
  by apply elem_of_nil in Hd.
Qed.

Lemma views_of_complete_catalog_witness :
  (∀ args, default 9 (a_per_page args) ≠ 0 →
     listing_accepted sample_regex_valid sample_sort_valid args →
     total_count match_all args sample_world < 2 ^ 63 →
     ∃ res, get_all_properties match_all natural_order sample_regex_valid
              sample_sort_valid args sample_world
            = (Ok (Response (JArr res) 200), sample_world))
  ∧ (∀ property_id oid, ObjectId_of_str property_id = Ok oid →
       ∃ r, get_property property_id sample_world = (Ok r, sample_world)
            ∧ (reply_code r = 200%nat ∨ r = property_not_found_reply)).
Proof.
  apply (views_of_complete_catalog match_all natural_order sample_regex_valid
           sample_sort_valid (λ key direction c, reflexivity c) sample_world).
  apply sample_world_complete.
Defined.

(** ** The ledger: reading bookings back *)

Lemma get_book_data_run booking_id w :
  get_book_data booking_id w =
    match ObjectId_of_str booking_id with
    | Raise e => (Raise e, w)
    | Ok oid =>
        match find_one (has_id oid) (book w) with
        | Some entry => (Ok (Response (JObj (booking_view entry)) 200), w)
        | None => (Ok booking_not_found, w)
        end
    end.
Proof.
  destruct w as [h g p b s]. unfold get_book_data. run.
  destruct (ObjectId_of_str booking_id) as [oid|e]; [|reflexivity].
  destruct (find_one (has_id oid) b); reflexivity.
Qed.

Lemma get_all_book_data_run w :
  get_all_book_data w = (Ok (Response (JArr (map booking_view (book w))) 200), w).
Proof. by destruct w. Qed.

Lemma book_after_create new_id data w :
  encodable (booking_of new_id data) = true →
  existsb (has_id new_id) (book w) = false →
  book (exec (Create new_id data) w) = book w ++ [booking_of new_id data].
Proof.
  intros He Hf. unfold exec, run_op. rewrite post_booking_run, He, Hf. cbn zeta.
  destruct (truthy _); [|by destruct w].
  destruct (ObjectId_of _); by destruct w.
Qed.

(** X13. Once a booking creation got its record into the ledger (the
    fields of the request are values that BSON encodes, the new id is not
    yet there), the booking can be read back by its id and comes last in
    the list of all bookings, each field rendered by [str] (a field that
    the request left out reads "None"); this holds also when the creation
    went on to raise [InvalidId] or [TypeError] on a malformed
    [property_id]. *)
Theorem created_booking_is_listed (new_id : ObjectId) (data : gmap string value)
    (w : world) :
  valid_oid new_id →
  encodable (booking_of new_id data) = true →
  settled_property_id (data_get data "property_id") →
  existsb (has_id new_id) (book w) = false →
  let w1 := exec (Create new_id data) w in
  get_book_data (str_oid new_id) w1
  = (Ok (Response (JObj (booking_view (booking_of new_id data))) 200), w1)
  ∧ get_all_book_data w1
    = (Ok (Response (JArr (map booking_view (book w)
                           ++ [booking_view (booking_of new_id data)])) 200), w1).
Proof.
  intros Hv He _ Hf w1.
  assert (Hb : book w1 = book w ++ [booking_of new_id data])
    by (by apply book_after_create).
  split.
  - rewrite get_book_data_run, (ObjectId_of_str_str _ Hv), Hb.
    by rewrite find_one_app_new.
  - rewrite get_all_book_data_run, Hb, map_app. reflexivity.
Qed.

Lemma created_booking_is_listed_witness :
  let w1 := exec (Create oid_b1 stray_request) sample_world in
  get_book_data (str_oid oid_b1) w1
  = (Ok (Response (JObj (booking_view (booking_of oid_b1 stray_request))) 200), w1)
  ∧ get_all_book_data w1
    = (Ok (Response (JArr (map booking_view (book sample_world)
                           ++ [booking_view (booking_of oid_b1 stray_request)])) 200),
       w1).
Proof.
  apply (created_booking_is_listed oid_b1 stray_request sample_world).
  - reflexivity.
  - reflexivity.
  - intros _. vm_compute. discriminate.
  - reflexivity.
Defined.

Lemma book_after_delete booking_id oid w :
  ObjectId_of_str booking_id = Ok oid →
  book (exec (Delete booking_id) w) =
    match find_one (has_id oid) (book w) with
    | Some _ => delete_first (has_id oid) (book w)
    | None => book w
    end.
Proof.
  intros Hoid. unfold exec, run_op. rewrite delete_booking_run, Hoid.
  destruct (find_one _ _); [|done]. cbn zeta.
  destruct (truthy _); [|by destruct w].
  destruct (ObjectId_of _); by destruct w.
Qed.

(** X14. After a booking delete, the booking is gone: a read of the same
    id and a second delete both answer not-found, and the second delete
    changes nothing.  This holds whether the first delete returned or went
    on to raise.  (Booking ids are unique, as the index on [_id] has it.) *)
Theorem deleted_booking_is_gone (booking_id : string) (oid : ObjectId) (w : world) :
  ObjectId_of_str booking_id = Ok oid →
  booking_ids_unique w →
  let w1 := exec (Delete booking_id) w in
  get_book_data booking_id w1 = (Ok booking_not_found, w1)
  ∧ delete_book_data booking_id w1 = (Ok booking_not_found, w1).
Proof.
  intros Hoid Hu w1.
  assert (Hgone : find_one (has_id oid) (book w1) = None).
  { subst w1. rewrite (book_after_delete _ oid) by done.
    destruct (find_one (has_id oid) (book w)) eqn:Hf; [|done].
    by apply find_one_delete_first_same. }
  split.
  - by rewrite get_book_data_run, Hoid, Hgone.
  - by rewrite delete_booking_run, Hoid, Hgone.
Qed.

Lemma deleted_booking_is_gone_witness :
  let w1 := exec (Delete (str_oid oid_b1)) booked_world in
  get_book_data (str_oid oid_b1) w1 = (Ok booking_not_found, w1)
  ∧ delete_book_data (str_oid oid_b1) w1 = (Ok booking_not_found, w1).
Proof.
  apply (deleted_booking_is_gone (str_oid oid_b1) oid_b1 booked_world).
  - reflexivity.
  - unfold booking_ids_unique. apply (bool_decide_unpack _). vm_compute. exact I.
Defined.

(** ** The ledger: what it writes *)

Lemma same_but_status_refl d : same_but_status d d.
Proof. by split. Qed.

Lemma same_but_status_set b d :
  same_but_status d (set_fields {["status" := VBool b]} d).
Proof.
  split; [done|]. intros k Hk. rewrite lookup_set_fields.
  by rewrite lookup_singleton_ne.
Qed.

Lemma Forall2_set_status b i c :
  Forall2 same_but_status c (set_status b i c).
Proof.
  unfold set_status. induction c as [|d c IH]; [constructor|].
  cbn [update_first]. destruct (has_id i d).
  - constructor; [apply same_but_status_set|].
    apply Forall_Forall2_diag, Forall_forall. intros; apply same_but_status_refl.
  - constructor; [apply same_but_status_refl|apply IH].
Qed.

Lemma Forall2_same_but_status_refl c : Forall2 same_but_status c c.
Proof. apply Forall_Forall2_diag, Forall_forall. intros; apply same_but_status_refl. Qed.

(** X15. A booking creation or deletion, whether it returns or raises,
    neither adds nor removes a property and writes no field of a property
    other than its status; accounts and session are left alone. *)
Theorem ledger_writes_status_only (op : ledger_op) (w : world) :
  Forall2 same_but_status (properties w) (properties (exec op w))
  ∧ hosts (exec op w) = hosts w
  ∧ guests (exec op w) = guests w
  ∧ session (exec op w) = session w.
Proof.
  destruct op as [new_id data|booking_id]; unfold exec, run_op.
  - rewrite post_booking_run.
    destruct (negb _); [by split; [apply Forall2_same_but_status_refl|]|].
    destruct (existsb _ _); [by split; [apply Forall2_same_but_status_refl|]|].
    cbn zeta. destruct (truthy _);
      [destruct (ObjectId_of _)|]; destruct w; cbn;
      (split; [apply Forall2_set_status || apply Forall2_same_but_status_refl|done]).
  - rewrite delete_booking_run.
    destruct (ObjectId_of_str booking_id);
      [|by split; [apply Forall2_same_but_status_refl|]].
    destruct (find_one _ _); [|by split; [apply Forall2_same_but_status_refl|]].
    cbn zeta. destruct (truthy _);
      [destruct (ObjectId_of _)|]; destruct w; cbn;
      (split; [apply Forall2_set_status || apply Forall2_same_but_status_refl|done]).
Qed.

(** ** Ids stay unique *)

Section unique_ids.
Context {A : Type} `{HasId A}.
Implicit Types (q : A → bool) (c : list A).

Lemma existsb_has_id i c : existsb (has_id i) c = false → i ∉ map oid_of c.
Proof.
  intros He Hi. apply list_elem_of_fmap in Hi as (a & -> & Ha).
  apply find_one_existsb in He.
  assert (Hex : existsb (has_id (oid_of a)) c = true).
  { apply existsb_exists. exists a. split; [by apply list_elem_of_In|].
    by apply has_id_true. }
  apply find_one_existsb in He. congruence.
Qed.

Lemma NoDup_insert_new c (a : A) :
  NoDup (map oid_of c) → existsb (has_id (oid_of a)) c = false →
  NoDup (map oid_of (c ++ [a])).
Proof.
  intros Hc He. rewrite map_app. apply NoDup_app. split; [done|]. split.
  - intros i Hi [->|Hn]%elem_of_cons; [|by apply elem_of_nil in Hn].
    by apply existsb_has_id in He.
  - apply NoDup_singleton.
Qed.

Lemma map_oid_update_first q (f : A → A) c :
  (∀ a, oid_of (f a) = oid_of a) →
  map oid_of (update_first q f c) = map oid_of c.
Proof.
  intros Hf. induction c as [|a c IH]; [done|]. cbn [update_first].
  destruct (q a); cbn; by rewrite ?Hf, ?IH.
Qed.

Lemma NoDup_delete_first q c :
  NoDup (map oid_of c) → NoDup (map oid_of (delete_first q c)).
Proof.
  induction c as [|a c IH]; [done|]. cbn [delete_first map].
  intros [Ha Hc]%NoDup_cons. destruct (q a); [done|].
  cbn [map]. apply NoDup_cons. split; [|by apply IH].
  intros Hi. apply Ha. apply list_elem_of_fmap in Hi as (b & -> & Hb).
  apply list_elem_of_fmap_2. by apply (elem_of_delete_first q).
Qed.
End unique_ids.

Lemma map_doc_id_update_first q upd (c : list document) :
  map doc_id (update_first q (set_fields upd) c) = map doc_id c.
Proof. apply (map_oid_update_first (A:=document)), set_fields_id. Qed.

Lemma exec_store_unique op w :
  property_ids_unique w ∧ booking_ids_unique w →
  property_ids_unique (exec_store op w) ∧ booking_ids_unique (exec_store op w).
Proof.
  unfold property_ids_unique, booking_ids_unique. intros [Hp Hb].
  destruct op as [new_id data|property_id data|property_id|[new_id data|booking_id]];
    cbn [exec_store]; unfold exec, run_op.
  - rewrite create_property_run.
    destruct (first_missing data); [done|].
    destruct (negb _); [done|].
    destruct (existsb _ _) eqn:He; [done|]. destruct w; cbn in *.
    split; [|done]. by apply (NoDup_insert_new _ (property_of new_id data)).
  - rewrite update_property_run.
    destruct (ObjectId_of_str property_id); [|done].
    destruct (negb _); [done|]. destruct (negb _); [done|].
    destruct (find_one _ _) as [found|]; [|done].
    destruct (bool_decide _); [done|]. destruct w; cbn in *.
    split; [|done]. by rewrite map_doc_id_update_first.
  - rewrite delete_property_run.
    destruct (ObjectId_of_str property_id); [|done].
    destruct (find_one _ _) as [found|]; [|done]. destruct w; cbn in *.
    split; [|done]. by apply NoDup_delete_first.
  - rewrite post_booking_run.
    destruct (negb _); [done|].
    destruct (existsb _ _) eqn:He; [done|]. cbn zeta.
    assert (Hnew : NoDup (map b_id (book w ++ [booking_of new_id data])))
      by (by apply (NoDup_insert_new _ (booking_of new_id data))).
    destruct (truthy _); [|by destruct w].
    destruct (ObjectId_of _); [|by destruct w]. destruct w; cbn in *.
    split; [|done]. unfold set_status.
    by rewrite map_doc_id_update_first.
  - rewrite delete_booking_run.
    destruct (ObjectId_of_str booking_id) as [oid|]; [|done].
    destruct (find_one _ _) as [found|]; [|done]. cbn zeta.
    assert (Hdel : NoDup (map b_id (delete_first (has_id oid) (book w))))
      by (by apply NoDup_delete_first).
    destruct (truthy _); [|by destruct w].
    destruct (ObjectId_of _); [|by destruct w]. destruct w; cbn in *.
    split; [|done]. unfold set_status.
    by rewrite map_doc_id_update_first.
Qed.

(** X21. No route stores a second document under an id that is in use:
    if property ids and booking ids are unique, they are unique after any
    sequence of property creations, updates and deletions and booking
    creations and deletions, whether these return or raise. *)
Theorem ids_unique_preserved (w w' : world) :
  property_ids_unique w → booking_ids_unique w → store_run w w' →
  property_ids_unique w' ∧ booking_ids_unique w'.
Proof.
  intros Hp Hb Hrun. induction Hrun as [w|w w' op Hrun IH]; [done|].
  by apply exec_store_unique, IH.
Qed.

Lemma ids_unique_preserved_witness :
  property_ids_unique
    (exec_store (Ledger (Create oid_b2 (booking_request oid_p1)))
       (exec_store (CreateProperty oid_p1 (property_request "Nest" 10)) booked_world))
  ∧ booking_ids_unique
      (exec_store (Ledger (Create oid_b2 (booking_request oid_p1)))
         (exec_store (CreateProperty oid_p1 (property_request "Nest" 10)) booked_world)).
Proof.
  apply (ids_unique_preserved booked_world).
  - unfold property_ids_unique. apply (bool_decide_unpack _). vm_compute. exact I.
  - unfold booking_ids_unique. apply (bool_decide_unpack _). vm_compute. exact I.
  - apply store_step, store_step, store_here.
Defined.

(** ** Accounts: signup, login, logout *)

Lemma find_one_email_absent email (c : list credential) :
  find_one (email_is email) c = None ↔ email ∉ map cred_email c.
Proof.
  unfold find_one. induction c as [|a c IH]; cbn.
  - split; [intros _ H; by apply elem_of_nil in H|done].
  - unfold email_is at 1. destruct (decide (cred_email a = email)) as [He|He].
    + rewrite bool_decide_true by done. split; [discriminate|].
      intros Hn. destruct Hn. rewrite He. left.
    + rewrite bool_decide_false by done. rewrite IH. rewrite not_elem_of_cons.
      split; [intros; split; congruence|by intros [_ ?]].
Qed.

Lemma partition_add_credential r r' c w :
  partition r (add_credential r' c w) =
    match r, r' with
    | Host, Host | Guest, Guest => partition r w ++ [c]
    | _, _ => partition r w
    end.
Proof. by destruct r, r'. Qed.

Section more_auth_facts.
Variable hashpw : string → string → outcome string.
Variable checkpw : string → string → outcome bool.

(** X16. After a signup that succeeded, a login of the same role with the
    same email and password succeeds: it answers 200 (for a host with the
    id that the signup returned) and records the role in the session,
    changing nothing else.  (The email is a value that BSON encodes;
    bcrypt hashes the password and verifies it against the hash it made
    of it.) *)
Theorem login_after_signup (r : role) (w : world) (new_id : ObjectId)
    (salt p hashed : string) (data : gmap string value) :
  encodable_value (data_get data "email") = true →
  find_one (email_is (data_get data "email")) (partition r w) = None →
  data_get data "password" = VStr p →
  existsb (has_id new_id) (partition r w) = false →
  hashpw p salt = Ok hashed →
  checkpw p hashed = Ok true →
  let signed := signup hashpw r new_id salt data w in
  fst signed = Ok (signed_up r new_id)
  ∧ login checkpw r data (snd signed)
    = (Ok (logged_in r new_id),
       with_session (<["user_role" := role_name r]> (session w)) (snd signed)).
Proof.
  intros Henc Habsent Hp Hfresh Hhash Hcheck signed. subst signed.
  rewrite signup_run, Henc, Habsent, Hp. cbn [hash_password]. rewrite Hhash, Hfresh.
  cbn [fst snd]. split; [done|].
  rewrite login_run, Henc.
  assert (Hfind : find_one (email_is (data_get data "email"))
            (partition r (add_credential r
               (Credential new_id (data_get data "email") hashed) w))
          = Some (Credential new_id (data_get data "email") hashed)).
  { rewrite partition_add_credential.
    replace (match r with Host | Guest => _ end)
      with (partition r w ++ [Credential new_id (data_get data "email") hashed])
      by (by destruct r).
    rewrite find_one_app, Habsent. unfold find_one; cbn.
    unfold email_is; cbn. by rewrite bool_decide_true. }
  rewrite Hfind, Hp. cbn [verify_password cred_password]. rewrite Hcheck.
  destruct r, w; reflexivity.
Qed.

(** X17. A signup whose password is missing or is not a string stores
    nothing: it raises [OverflowError] when the email is an integer beyond
    eight bytes (the lookup comes first), answers Conflict when the email
    is taken (the password is not looked at then) and raises
    [AttributeError] otherwise. *)
Theorem signup_needs_string_password (r : role) (w : world) (new_id : ObjectId)
    (salt : string) (data : gmap string value) :
  (∀ p, data_get data "password" ≠ VStr p) →
  signup hashpw r new_id salt data w
  = (if encodable_value (data_get data "email") then
       match find_one (email_is (data_get data "email")) (partition r w) with
       | Some _ => Ok email_exists
       | None => Raise AttributeError
       end
     else Raise OverflowError, w).
Proof.
  intros Hp. rewrite signup_run.
  destruct (encodable_value _); [|done].
  destruct (find_one _ _); [done|].
  destruct (data_get data "password") as [| | |p]; try done.
  by destruct (Hp p).
Qed.

(** X18. Signup keeps the emails of a partition distinct: if no email
    occurs twice among the accounts of a role, none does after any signup
    of either role, whether it succeeded, was refused or raised. *)
Theorem signup_keeps_emails_unique (r r' : role) (w : world) (new_id : ObjectId)
    (salt : string) (data : gmap string value) :
  emails_unique r w →
  emails_unique r (snd (signup hashpw r' new_id salt data w)).
Proof.
  intros Hu. rewrite signup_run.
  destruct (encodable_value _); [|done].
  destruct (find_one _ _) eqn:Hf; [done|].
  destruct (hash_password _ _ _); [|done].
  destruct (existsb _ _); [done|]. cbn [snd].
  unfold emails_unique in *. rewrite partition_add_credential.
  destruct r, r'; try done.
  - rewrite map_app. apply NoDup_app. split; [done|]. split.
    + intros e He [->|Hn]%elem_of_cons; [|by apply elem_of_nil in Hn].
      by apply find_one_email_absent in Hf.
    + cbn. apply NoDup_singleton.
  - rewrite map_app. apply NoDup_app. split; [done|]. split.
    + intros e He [->|Hn]%elem_of_cons; [|by apply elem_of_nil in Hn].
      by apply find_one_email_absent in Hf.
    + cbn. apply NoDup_singleton.
Qed.

(** X19. A logout after a successful login answers 200 and takes the role
    out of the session again: accounts, catalog and ledger are as before
    the login, and so is the whole state when no role was recorded before
    it. *)
Theorem logout_after_login (r : role) (w w1 : world) (data : gmap string value)
    (resp : response) :
  login checkpw r data w = (Ok resp, w1) →
  code resp = 200%nat →
  logout w1 = (Ok logged_out, with_session (delete "user_role" (session w)) w)
  ∧ (session w !! "user_role" = None → snd (logout w1) = w).
Proof.
  intros Hlogin Hcode. rewrite login_run in Hlogin.
  assert (Hw1 : w1 = with_session (<["user_role" := role_name r]> (session w)) w).
  { destruct (encodable_value _); [|discriminate].
    destruct (find_one _ _) as [c|].
    - destruct (verify_password _ _ _) as [[]|].
      + destruct r; by injection Hlogin as <- <-.
      + injection Hlogin as <- <-. discriminate.
      + discriminate.
    - injection Hlogin as <- <-. discriminate. }
  subst w1. unfold logout. run.
  rewrite delete_insert_eq. split; [done|].
  intros Hnone. cbn. rewrite delete_id by done. by destruct w.
Qed.
End more_auth_facts.

Lemma login_after_signup_witness :
  let signed := signup sample_hashpw Guest oid_u2 "s3"
                  (credentials "ann@example.org" "lily") host_only_world in
  fst signed = Ok (signed_up Guest oid_u2)
  ∧ login sample_checkpw Guest (credentials "ann@example.org" "lily") (snd signed)
    = (Ok (logged_in Guest oid_u2),
       with_session (<["user_role" := role_name Guest]> (session host_only_world))
         (snd signed)).
Proof.
  apply (login_after_signup sample_hashpw sample_checkpw Guest host_only_world
           oid_u2 "s3" "lily" (sample_hash "lily" "s3")
           (credentials "ann@example.org" "lily")).
  - reflexivity.
  - reflexivity.
  - reflexivity.
  - reflexivity.
  - reflexivity.
  - reflexivity.
Defined.

Lemma signup_needs_string_password_witness :
  signup sample_hashpw Guest oid_u2 "s3"
    (<["email" := VStr "ann@example.org"]> ∅) host_only_world
  = (if encodable_value (data_get (<["email" := VStr "ann@example.org"]> ∅) "email") then
       match find_one (email_is (data_get (<["email" := VStr "ann@example.org"]> ∅) "email"))
               (partition Guest host_only_world) with
       | Some _ => Ok email_exists
       | None => Raise AttributeError
       end
     else Raise OverflowError, host_only_world).
Proof.
  apply (signup_needs_string_password sample_hashpw Guest host_only_world oid_u2 "s3"
           (<["email" := VStr "ann@example.org"]> ∅)).
  intros p Hp. vm_compute in Hp. discriminate Hp.
Defined.

Lemma signup_keeps_emails_unique_witness :
  emails_unique Host
    (snd (signup sample_hashpw Host oid_u2 "s3"
            (credentials "bob@example.org" "lily") host_only_world)).
Proof.
  apply (signup_keeps_emails_unique sample_hashpw Host Host host_only_world).
  unfold emails_unique. cbn. apply NoDup_singleton.
Defined.

Lemma logout_after_login_witness :
  logout (with_session (<["user_role" := "host"]> ∅) host_only_world)
  = (Ok logged_out,
     with_session (delete "user_role" (session host_only_world)) host_only_world)
  ∧ (session host_only_world !! "user_role" = None →
     snd (logout (with_session (<["user_role" := "host"]> ∅) host_only_world))
     = host_only_world).
Proof.
  apply (logout_after_login sample_checkpw Host host_only_world _
           (credentials "ann@example.org" "tulip") (logged_in Host oid_u1)).
  - vm_compute. reflexivity.
  - reflexivity.
Defined.

(** ** Chat *)

Example chat_examples :
  get_chatbot_response completion_fixed "Hello" = Some "Yes, hello! How can I help you?"
  ∧ get_chatbot_response completion_fixed "   " = Some "How can I assist you?"
  ∧ get_chatbot_response completion_fixed "Tell me about HOTELS" = None
  ∧ get_chatbot_response completion_fixed "beach?" = Some "Try the beach."
  ∧ get_chatbot_response completion_fixed " hello" = Some "Try the beach.".
Proof. repeat split; vm_compute; reflexivity. Qed.

Lemma space_is_no_h c : is_space c = true → lower_char c ≠ "h"%char.
Proof.
  destruct c as [[] [] [] [] [] [] [] []]; vm_compute; intros H1 H2; congruence.
Qed.

Lemma contains_cons_other p0 p c s :
  c ≠ p0 → contains (String p0 p) (String c s) = contains (String p0 p) s.
Proof.
  intros Hc. cbn [contains String.prefix].
  destruct (ascii_dec p0 c); [congruence|reflexivity].
Qed.

Lemma lstrip_blank_no_hotel s :
  lstrip s = "" → contains "hotel" (lower s) = false.
Proof.
  induction s as [|c s IH]; [reflexivity|]. cbn [lstrip lower].
  destruct (is_space c) eqn:Hc; [|discriminate].
  intros Hs. rewrite contains_cons_other by (by apply space_is_no_h).
  by apply IH.
Qed.

Lemma lstrip_head s : ∀ c t, lstrip s = String c t → is_space c = false.
Proof.
  induction s as [|a s IH]; [discriminate|]. intros c t. cbn [lstrip].
  destruct (is_space a) eqn:Ha; [apply IH|]. by intros [= <- <-].
Qed.

Lemma rstrip_empty_head c t : rstrip (String c t) = "" → is_space c = true.
Proof.
  cbn [rstrip]. destruct (rstrip t); [|discriminate].
  by destruct (is_space c).
Qed.

Lemma strip_blank_no_hotel s :
  strip s = "" → contains "hotel" (lower s) = false.
Proof.
  unfold strip. intros Hs. apply lstrip_blank_no_hotel.
  destruct (lstrip s) as [|c t] eqn:Hl; [done|].
  apply rstrip_empty_head in Hs. apply lstrip_head in Hl. congruence.
Qed.

Lemma greeting_no_hotel s :
  existsb (String.eqb s) greetings = true → contains "hotel" s = false.
Proof.
  cbn [existsb greetings]. rewrite !orb_true_iff, !String.eqb_eq.
  intros [->|[->|[->|Hf]]]; try reflexivity. discriminate Hf.
Qed.

Section chat_facts.
Variable completion : string → option string.

(** X20. Whatever the completion service does, also when it fails, a chat
    request whose [user_input] is a string is answered with status 200 and
    leaves the store alone.  The response is a string, except that it is
    [null] exactly for the inputs that contain "hotel" in any letter case:
    those are handed to [get_hotel_response], which returns nothing. *)
Theorem chat_answers (data : gmap string value) (w : world) (s : string) :
  data !! "user_input" = Some (VStr s) →
  ∃ r, chat completion data w = (Ok (Reply [("response", r)] 200), w)
       ∧ (r = JNull ↔ contains "hotel" (lower s) = true).
Proof.
  intros Hs. unfold chat, data_item. rewrite Hs. unfold bind, lift, ret.
  unfold get_chatbot_response.
  destruct (String.eqb (strip s) "") eqn:Hblank.
  - apply String.eqb_eq in Hblank. apply strip_blank_no_hotel in Hblank.
    eexists. split; [reflexivity|]. rewrite Hblank. split; discriminate.
  - destruct (existsb (String.eqb (lower s)) greetings) eqn:Hg.
    + apply greeting_no_hotel in Hg.
      eexists. split; [reflexivity|]. rewrite Hg. split; discriminate.
    + destruct (contains "hotel" (lower s)) eqn:Hh.
      * eexists. split; [reflexivity|]. done.
      * destruct (completion _); eexists; (split; [reflexivity|]);
          split; discriminate.
Qed.
End chat_facts.

Lemma chat_answers_witness :
  ∃ r, chat completion_down (<["user_input" := VStr "Any HOTEL nearby?"]> ∅) sample_world
       = (Ok (Reply [("response", r)] 200), sample_world)
       ∧ (r = JNull ↔ contains "hotel" (lower "Any HOTEL nearby?") = true).
Proof.
  apply (chat_answers completion_down
           (<["user_input" := VStr "Any HOTEL nearby?"]> ∅) sample_world).
  reflexivity.
Defined.
